(** * The organization projects dashboard and its data-fetching wrappers

    A shallow embedding of the dashboard screen, of the team section
    and of the [with*] wrapper components, with the properties of their
    data shaping and of their loading state.

    React components are modelled by their [render] function (props to
    a view) and by a transition function over lifecycle and network
    events ([componentDidMount], [componentDidUpdate], a request
    settling). A JavaScript object whose identity the code observes
    carries that identity as a number. *)

From stdpp Require Import gmap strings list fin_maps sorting.

(** ** Data model (app/types, as far as the sources read it) *)

Record Project := {
  p_oid : nat;                  (* identity of the object, what [===] compares *)
  p_id : string;
  p_slug : string;
  p_name : string;
  isBookmarked : bool;
  firstEvent : option string;   (* [None] is null/undefined *)
}.

Record Team := {
  t_slug : string;
  t_projects : list Project;
}.

Record Organization := {
  org_slug : string;
  access : list string;
}.

(** ** The JavaScript built-ins the sources call *)

Module JS.

(** [!!v] for a value that is a string, null or undefined. *)
Definition truthy (v : option string) : bool :=
  match v with
  | None => false
  | Some s => negb (String.eqb s EmptyString)
  end.

(** [!!v] for a value that is an object or undefined. *)
Definition defined {A} (v : option A) : bool :=
  match v with
  | Some _ => true
  | None => false
  end.

(** [Object.fromEntries(es)] and [new Map(es)]: entries are written in
    order, a later entry replaces an earlier one with the same key. *)
Definition fromEntries {V} (es : list (string * V)) : gmap string V :=
  fold_left (λ m e, <[e.1 := e.2]> m) es ∅.

(** [Object.keys(o)]; every use in the sources is followed by [.sort()]. *)
Definition keys {V} (o : gmap string V) : list string := (map_to_list o).*1.

(** [array.sort()] on strings: ascending by code units. *)
Definition sort (xs : list string) : list string := merge_sort String.le xs.

(** [array.flat()]. *)
Definition flat {A} (xss : list (list A)) : list A := concat xss.

End JS.

(** ** lodash *)

Module Lodash.

(** [_.flatten(array)]: one level. *)
Definition flatten {A} (xss : list (list A)) : list A := concat xss.

(** [SameValueZero] on two objects is identity. *)
Definition sameValueZero (a b : Project) : bool := Nat.eqb (p_oid a) (p_oid b).

Fixpoint baseUniq (seen : list Project) (array : list Project) : list Project :=
  match array with
  | [] => []
  | value :: rest =>
      if existsb (sameValueZero value) seen then baseUniq seen rest
      else value :: baseUniq (value :: seen) rest
  end.

(** [_.uniq(array)] of lodash 4: one parameter, the first occurrence of
    each element under [SameValueZero] is kept. Further arguments of a
    call are not read; [extra] stands for them. *)
Definition uniq (array : list Project) (extra : string) : list Project :=
  baseUniq [] array.

Definition project_isEqual (a b : Project) : bool :=
  bool_decide (p_id a = p_id b) && bool_decide (p_slug a = p_slug b)
  && bool_decide (p_name a = p_name b)
  && bool_decide (isBookmarked a = isBookmarked b)
  && bool_decide (firstEvent a = firstEvent b).

Fixpoint array_isEqual {A} (eq : A → A → bool) (xs ys : list A) : bool :=
  match xs, ys with
  | [], [] => true
  | x :: xs', y :: ys' => eq x y && array_isEqual eq xs' ys'
  | _, _ => false
  end.

Definition team_isEqual (a b : Team) : bool :=
  bool_decide (t_slug a = t_slug b)
  && array_isEqual project_isEqual (t_projects a) (t_projects b).

(** [_.isEqual(a, b)] on two team arrays: deep comparison by value, in
    order; object identity is not compared. *)
Definition isEqual (a b : list Team) : bool := array_isEqual team_isEqual a b.

End Lodash.

(** What two objects have in common when they are equal by value: their
    fields, without their identity. *)
Definition projectValue (p : Project) : string * string * string * bool * option string :=
  (p_id p, p_slug p, p_name p, isBookmarked p, firstEvent p).

Definition teamValue (t : Team) : string * list (string * string * string * bool * option string) :=
  (t_slug t, projectValue <$> t_projects t).

(** ** app/utils *)

(** Modelled from the spec: [sortProjects] of app/utils is imported by both
    dashboards and is not among the sources. The spec fixes its order as
    (isBookmarked desc, name asc). *)
Definition projectDisplayLe (a b : Project) : Prop :=
  match isBookmarked a, isBookmarked b with
  | true, false => True
  | false, true => False
  | _, _ => String.le (p_name a) (p_name b)
  end.

#[global] Instance projectDisplayLe_dec : RelDecision projectDisplayLe.
Proof.
  intros a b. unfold projectDisplayLe.
  destruct (isBookmarked a), (isBookmarked b); apply _.
Defined.

Definition sortProjects (projects : list Project) : list Project :=
  merge_sort projectDisplayLe projects.

(** The endpoint [`/teams/${orgId}/${teamSlug}/projects/`]. *)
Definition teamProjectsEndpoint (orgId teamSlug : string) : string :=
  "/teams/" +:+ orgId +:+ "/" +:+ teamSlug +:+ "/projects/".

(** ** What a dashboard renders *)

(** The props of one [<TeamSection>] element, with its React key and
    whether its title is the link to the team settings. Neither dashboard
    over loaded projects hands its sections an [api] prop, and the
    component is exported as it is, without a wrapper that would. *)
Record TeamSectionProps := {
  ts_key : string;
  ts_api : bool;                (* whether an [api] client is handed in *)
  ts_orgId : string;
  ts_team : option Team;
  ts_showBorder : bool;
  ts_titleLinked : bool;
  ts_projects : option (list Project);
}.

Inductive View :=
  | LoadingIndicator
  | ErrorAlert
  | NoProjectMessage (projects : list Project)
  | Content (header : bool) (sections : list TeamSectionProps) (resources : bool)
  | TypeError.   (* [team.slug] read on an undefined team *)

Definition hasAccess (organization : Organization) (scope : string) : bool :=
  bool_decide (scope ∈ access organization).

(** The body of [teamSlugs.map((slug, index) => ...)], the same in both
    dashboards. *)
Definition teamSection (orgId : string) (hasTeamAdminAccess : bool)
    (teamsMap : gmap string Team) (projectsByTeam : gmap string (list Project))
    (len : nat) (index : nat) (slug : string) : option TeamSectionProps :=
  let showBorder := negb (index =? len - 1) in
  let team := teamsMap !! slug in
  match team, hasTeamAdminAccess with
  | None, true => None
  | _, _ =>
      Some {| ts_key := slug; ts_api := false; ts_orgId := orgId; ts_team := team;
              ts_showBorder := showBorder; ts_titleLinked := hasTeamAdminAccess;
              ts_projects := projectsByTeam !! slug |}
  end.

Definition teamSections (orgId : string) (hasTeamAdminAccess : bool)
    (teamsMap : gmap string Team) (projectsByTeam : gmap string (list Project))
    (teamSlugs : list string) : option (list TeamSectionProps) :=
  mapM (λ '(index, slug),
          teamSection orgId hasTeamAdminAccess teamsMap projectsByTeam
            (length teamSlugs) index slug)
       (imap pair teamSlugs).

(** What every section built by [teamSections] holds. *)
Definition sectionOf (orgId : string) (hasTeamAdminAccess : bool)
    (teamsMap : gmap string Team) (projectsByTeam : gmap string (list Project))
    (s : TeamSectionProps) : Prop :=
  ts_orgId s = orgId ∧ ts_titleLinked s = hasTeamAdminAccess
  ∧ ts_team s = teamsMap !! ts_key s ∧ ts_projects s = projectsByTeam !! ts_key s.

(** [projects.length === 1 && !projects[0].firstEvent] *)
Definition showResources (projects : list Project) : bool :=
  (length projects =? 1)
  && match head projects with
     | Some p => negb (JS.truthy (firstEvent p))
     | None => false
     end.

Definition content (projects : list Project)
    (sections : option (list TeamSectionProps)) : View :=
  match sections with
  | Some ss => Content (0 <? length projects) ss (showResources projects)
  | None => TypeError
  end.

(** The sections a view mounts. *)
Definition mountedSections (v : View) : list TeamSectionProps :=
  match v with
  | Content _ sections _ => sections
  | _ => []
  end.

(** ** The dashboard over teams that embed their projects *)

Module Dashboard.

Record Props := {
  teams : list Team;
  params_orgId : string;
  organization : Organization;
  loadingTeams : bool;
  error : option string;
}.

Definition projectsByTeam (teams : list Team) : gmap string (list Project) :=
  JS.fromEntries (map (λ teamObj, (t_slug teamObj, sortProjects (t_projects teamObj))) teams).

Definition projects (teams : list Team) : list Project :=
  Lodash.uniq (Lodash.flatten (map t_projects teams)) "id".

Definition teamSlugs (teams : list Team) : list string :=
  JS.sort (JS.keys (projectsByTeam teams)).

Definition favorites (teams : list Team) : list Project :=
  filter (λ project, isBookmarked project) (projects teams).

Definition teamsMap (teams : list Team) : gmap string Team :=
  JS.fromEntries (map (λ teamObj, (t_slug teamObj, teamObj)) teams).

Definition showEmptyMessage (teams : list Team) : bool :=
  (length (projects teams) =? 0) && (length (favorites teams) =? 0).

Definition render (props : Props) : View :=
  if loadingTeams props then LoadingIndicator
  else if JS.defined (error props) then ErrorAlert
  else
    let hasTeamAdminAccess := hasAccess (organization props) "team:admin" in
    if showEmptyMessage (teams props) then NoProjectMessage (projects (teams props))
    else
      content (projects (teams props))
        (teamSections (params_orgId props) hasTeamAdminAccess
           (teamsMap (teams props)) (projectsByTeam (teams props))
           (teamSlugs (teams props))).

End Dashboard.

(** ** The install prompt banner over teams that embed their projects *)

Module LightWeightInstallPromptBanner.

(** [render] returns null while loading or on error, and otherwise an
    [InstallPromptBanner] with these projects. *)
Definition render (teams : list Team) (loadingTeams : bool)
    (error : option string) : option (list Project) :=
  if loadingTeams || JS.defined error then None
  else Some (Lodash.uniq (Lodash.flatten (map t_projects teams)) "id").

End LightWeightInstallPromptBanner.

(** ** The dashboard over separately fetched projects *)

Module DashboardWithProjects.

Record Props := {
  teams : list Team;
  projects : list Project;
  params_orgId : string;
  organization : Organization;
  loadingProjects : bool;
}.

(** [getProjectsByTeams] is imported from a file that is not among the
    sources; [render] takes it, and the [isSuperuser] flag it reads from
    the configuration store, as arguments. *)
Definition GetProjectsByTeams : Type :=
  list Team → list Project → bool → gmap string (list Project).

(** Modelled from the spec: of the absent [getProjectsByTeams] the spec
    says that the mapping it returns has one entry per team present in
    the current team list. *)
Definition oneEntryPerTeam (getProjectsByTeams : GetProjectsByTeams) : Prop :=
  ∀ teams projects isSuperuser slug,
    is_Some (getProjectsByTeams teams projects isSuperuser !! slug)
    ↔ slug ∈ t_slug <$> teams.

Definition teamSlugs (getProjectsByTeams : GetProjectsByTeams)
    (isSuperuser : bool) (props : Props) : list string :=
  JS.sort (JS.keys (getProjectsByTeams (teams props) (sortProjects (projects props)) isSuperuser)).

Definition favorites (props : Props) : list Project :=
  filter (λ project, isBookmarked project) (projects props).

Definition teamsMap (teams : list Team) : gmap string Team :=
  JS.fromEntries (map (λ teamObj, (t_slug teamObj, teamObj)) teams).

Definition showEmptyMessage (getProjectsByTeams : GetProjectsByTeams)
    (isSuperuser : bool) (props : Props) : bool :=
  (length (teamSlugs getProjectsByTeams isSuperuser props) =? 0)
  && (length (favorites props) =? 0).

Definition render (getProjectsByTeams : GetProjectsByTeams)
    (isSuperuser : bool) (props : Props) : View :=
  if loadingProjects props then LoadingIndicator
  else
    let sortedProjects := sortProjects (projects props) in
    let projectsByTeam := getProjectsByTeams (teams props) sortedProjects isSuperuser in
    let hasTeamAdminAccess := hasAccess (organization props) "team:admin" in
    if showEmptyMessage getProjectsByTeams isSuperuser props
    then NoProjectMessage (projects props)
    else
      content (projects props)
        (teamSections (params_orgId props) hasTeamAdminAccess
           (teamsMap (teams props)) projectsByTeam
           (teamSlugs getProjectsByTeams isSuperuser props)).

End DashboardWithProjects.

(** ** Requests *)

(** How one request of [api.requestPromise] for a project list ends. *)
Inductive Outcome :=
  | Fulfilled (data : list Project)
  | Rejected (err : string).

(** [Promise.all(promises)] fulfils, with the results in the order of the
    promises, once every promise has fulfilled; a slot is [None] while its
    request is in flight. *)
Definition allFulfilled (slots : list (option Outcome)) : option (list (list Project)) :=
  mapM (λ slot, match slot with
                | Some (Fulfilled data) => Some data
                | _ => None
                end) slots.

(** ** withTeamProjects, with the loading flag *)

Module WithTeamProjects.

Record Props := {
  organization : Organization;
  teams : list Team;
  teams_instance : nat;   (* identity of the [teams] array *)
  loadingTeams : bool;
}.

Record State := {
  projects : list Project;
  loadingProjects : bool;
}.

Definition initialState : State := {| projects := []; loadingProjects := true |}.

(** The component with what surrounds it: the requests sent so far and
    the [Promise.all] joins created so far, oldest first. *)
Record World := {
  state : State;
  network : list string;
  joins : list (list (option Outcome));
}.

Definition initial : World := {| state := initialState; network := []; joins := [] |}.

Definition getTeamsProjectEndpoints (props : Props) : list string :=
  map (λ team, teamProjectsEndpoint (org_slug (organization props)) (t_slug team))
      (teams props).

(** One [requestPromise] per endpoint. *)
Definition getTeamsProjectPromises (props : Props) : list (option Outcome) :=
  map (λ _, None) (getTeamsProjectEndpoints props).

Definition fetchProjects (props : Props) (w : World) : World :=
  let promises := getTeamsProjectPromises props in
  {| state := {| projects := projects (state w); loadingProjects := true |};
     network := network w ++ getTeamsProjectEndpoints props;
     joins := if 0 <? length promises then joins w ++ [promises] else joins w |}.

Definition componentDidMount (props : Props) (w : World) : World :=
  if negb (loadingTeams props) then fetchProjects props w else w.

Definition componentDidUpdate (prevProps props : Props) (w : World) : World :=
  if negb (loadingTeams props) && negb (Lodash.isEqual (teams prevProps) (teams props))
  then fetchProjects props w
  else w.

(** Request [i] of join [k] ends with [o]. A request ends once. When this
    makes every request of the join fulfilled, the [then] callback runs. *)
Definition settle (k i : nat) (o : Outcome) (w : World) : World :=
  match joins w !! k with
  | Some slots =>
      match slots !! i with
      | Some None =>
          let slots' := <[i := Some o]> slots in
          let st := match allFulfilled slots' with
                    | Some results =>
                        {| projects := JS.flat results; loadingProjects := false |}
                    | None => state w
                    end in
          {| state := st; network := network w; joins := <[k := slots']> (joins w) |}
      | _ => w
      end
  | None => w
  end.

Inductive Event :=
  | Mount (props : Props)
  | Update (prevProps props : Props)
  | Settle (k i : nat) (o : Outcome).

Definition step (w : World) (e : Event) : World :=
  match e with
  | Mount props => componentDidMount props w
  | Update prevProps props => componentDidUpdate prevProps props w
  | Settle k i o => settle k i o w
  end.

Definition run (w : World) (es : list Event) : World := fold_left step es w.

(** The props an event hands to the component. *)
Definition eventProps (e : Event) : option Props :=
  match e with
  | Mount props => Some props
  | Update _ props => Some props
  | Settle _ _ _ => None
  end.

Definition eventTeams (e : Event) : list Team :=
  match eventProps e with
  | Some props => teams props
  | None => []
  end.


(** No request of the join is in flight any more. *)
Definition settled (slots : list (option Outcome)) : bool :=
  forallb JS.defined slots.

Definition hasRejected (slots : list (option Outcome)) : bool :=
  existsb (λ slot, match slot with
                    | Some (Rejected _) => true
                    | _ => false
                    end) slots.


End WithTeamProjects.

(** ** withTeamProjects, without the loading flag *)

Module WithTeamProjectsPlain.

Record Props := {
  props_instance : nat;   (* identity of the props object *)
  organization : Organization;
  teams : list Team;
}.

Record State := { projects : list Project }.

Record World := {
  state : State;
  network : list string;
  joins : list (list (option Outcome));
}.

Definition initial : World :=
  {| state := {| projects := [] |}; network := []; joins := [] |}.

Definition getTeamsProjectEndpoints (props : Props) : list string :=
  map (λ team, teamProjectsEndpoint (org_slug (organization props)) (t_slug team))
      (teams props).

Definition getTeamsProjectPromises (props : Props) : list (option Outcome) :=
  map (λ _, None) (getTeamsProjectEndpoints props).

Definition fetchProjects (props : Props) (w : World) : World :=
  let promises := getTeamsProjectPromises props in
  {| state := state w;
     network := network w ++ getTeamsProjectEndpoints props;
     joins := if 0 <? length promises then joins w ++ [promises] else joins w |}.

Definition componentDidMount (props : Props) (w : World) : World :=
  fetchProjects props w.

(** [prevProps !== this.props] *)
Definition componentDidUpdate (prevProps props : Props) (w : World) : World :=
  if negb (props_instance prevProps =? props_instance props)
  then fetchProjects props w
  else w.

End WithTeamProjectsPlain.

(** ** withUsersTeams *)

Module WithUsersTeams.

Record State := { teams : list Team }.

Record World := {
  state : State;
  network : list string;
  inFlight : nat;
}.

Definition initial : World :=
  {| state := {| teams := [] |}; network := []; inFlight := 0 |}.

Definition getUsersTeamsEndpoint (organization : Organization) : string :=
  "/organizations/" +:+ org_slug organization +:+ "/teams/".

Definition fetchTeams (organization : Organization) (w : World) : World :=
  {| state := state w;
     network := network w ++ [getUsersTeamsEndpoint organization];
     inFlight := S (inFlight w) |}.

Definition componentDidMount (organization : Organization) (w : World) : World :=
  fetchTeams organization w.

Inductive Event :=
  | Mount (organization : Organization)
  | Resolve (data : list Team)
  | Reject (err : string).

(** The promise has a [then] callback and no rejection handler. *)
Definition step (w : World) (e : Event) : World :=
  match e, inFlight w with
  | Mount organization, _ => componentDidMount organization w
  | Resolve data, S n =>
      {| state := {| teams := data |}; network := network w; inFlight := n |}
  | Reject err, S n =>
      {| state := state w; network := network w; inFlight := n |}
  | _, O => w
  end.

Definition run (w : World) (es : list Event) : World := fold_left step es w.

End WithUsersTeams.

(** ** TeamSection *)

Module TeamSection.

Record Props := {
  team : Team;
  orgId : string;
}.

Record State := {
  loading : bool;
  projects : list Project;
}.

Record World := {
  state : State;
  network : list string;
  console : list string;   (* what [console.error] printed *)
  inFlight : nat;
}.

Definition initial : World :=
  {| state := {| loading := true; projects := [] |};
     network := []; console := []; inFlight := 0 |}.

(** [fetchData] up to its [await]. *)
Definition fetchData (props : Props) (w : World) : World :=
  {| state := {| loading := true; projects := projects (state w) |};
     network := network w ++ [teamProjectsEndpoint (orgId props) (t_slug (team props))];
     console := console w;
     inFlight := S (inFlight w) |}.

Definition componentDidMount (props : Props) (w : World) : World :=
  fetchData props w.

Inductive Event :=
  | Mount (props : Props)
  | Resolve (data : list Project)
  | Reject (err : string).

(** [fetchData] after its [await]: the [try] body on a response, the
    [catch] body on a rejection. *)
Definition step (w : World) (e : Event) : World :=
  match e, inFlight w with
  | Mount props, _ => componentDidMount props w
  | Resolve data, S n =>
      {| state := {| loading := false; projects := data |};
         network := network w; console := console w; inFlight := n |}
  | Reject err, S n =>
      {| state := state w; network := network w;
         console := console w ++ [err]; inFlight := n |}
  | _, O => w
  end.

Definition run (w : World) (es : list Event) : World := fold_left step es w.

End TeamSection.

(** ** Sample data *)

Module Sample.

Definition project (oid : nat) (id name : string) (bookmarked : bool)
    (first : option string) : Project :=
  {| p_oid := oid; p_id := id; p_slug := name; p_name := name;
     isBookmarked := bookmarked; firstEvent := first |}.

(** Project 1 is attached to both teams; each team's response carries
    its own object for it. *)
Definition zulu_a : Project := project 10 "1" "Z" false None.
Definition zulu_b : Project := project 11 "1" "Z" false None.
Definition alpha : Project := project 12 "2" "A" true (Some "2019-09-01").

Definition team_a : Team := {| t_slug := "a"; t_projects := [zulu_a] |}.
Definition team_b : Team := {| t_slug := "b"; t_projects := [alpha; zulu_b] |}.
Definition team_twice : Team := {| t_slug := "c"; t_projects := [zulu_a; zulu_a] |}.

Definition org : Organization :=
  {| org_slug := "acme"; access := ["team:admin"; "project:read"] |}.

Definition dashboardProps (teams : list Team) : Dashboard.Props :=
  {| Dashboard.teams := teams; Dashboard.params_orgId := "acme";
     Dashboard.organization := org; Dashboard.loadingTeams := false;
     Dashboard.error := None |}.

Definition wrapperProps (teams : list Team) (instance : nat) (loading : bool)
    : WithTeamProjects.Props :=
  {| WithTeamProjects.organization := org; WithTeamProjects.teams := teams;
     WithTeamProjects.teams_instance := instance;
     WithTeamProjects.loadingTeams := loading |}.

(** A grouping with one entry per team of the list, each holding the
    projects it is given. *)
Definition groupAll : DashboardWithProjects.GetProjectsByTeams :=
  λ teams projects _, JS.fromEntries (map (λ team, (t_slug team, projects)) teams).

Definition projectsProps (teams : list Team) (projects : list Project)
    : DashboardWithProjects.Props :=
  {| DashboardWithProjects.teams := teams;
     DashboardWithProjects.projects := projects;
     DashboardWithProjects.params_orgId := "acme";
     DashboardWithProjects.organization := org;
     DashboardWithProjects.loadingProjects := false |}.

(** A grouping that files every project under a team the list lacks. *)
Definition groupGhost : DashboardWithProjects.GetProjectsByTeams :=
  λ _ projects _, JS.fromEntries [("ghost", projects)].

Definition viewerOrg : Organization :=
  {| org_slug := "acme"; access := ["project:read"] |}.

Definition projectsPropsOf (organization : Organization) (teams : list Team)
    (projects : list Project) : DashboardWithProjects.Props :=
  {| DashboardWithProjects.teams := teams;
     DashboardWithProjects.projects := projects;
     DashboardWithProjects.params_orgId := "acme";
     DashboardWithProjects.organization := organization;
     DashboardWithProjects.loadingProjects := false |}.

End Sample.

(** ** What a team section renders *)

Module TeamSectionView.

Record ProjectCard := {
  card_key : string;
  card_testId : string;
  card_project : Project;
  card_hasProjectAccess : bool;
}.

(** The title as it was handed in, the [<TeamMembers>] element, when there
    is one, with its [teamId] and [orgId], then the project cards. *)
Record t := {
  showBorder : bool;
  titleLinked : bool;
  members : option (string * string);
  cards : list ProjectCard;
}.

(** [TeamSection.render]: the border and the organization come from the
    props, the projects from the state. *)
Definition render (props : TeamSectionProps) (access : list string)
    (st : TeamSection.State) : t :=
  let hasTeamAccess := bool_decide ("team:read" ∈ access) in
  let hasProjectAccess := bool_decide ("project:read" ∈ access) in
  {| showBorder := ts_showBorder props;
     titleLinked := ts_titleLinked props;
     members := if hasTeamAccess
                then (λ team, (t_slug team, ts_orgId props)) <$> ts_team props
                else None;
     cards := map (λ project, {| card_key := p_slug project;
                                 card_testId := p_slug project;
                                 card_project := project;
                                 card_hasProjectAccess := hasProjectAccess |})
                  (TeamSection.projects st) |}.

(** The props [fetchData] can work with: an [api] client to call and a
    team to read the slug of. *)
Definition fetchProps (props : TeamSectionProps) : option TeamSection.Props :=
  if ts_api props
  then (λ team, {| TeamSection.team := team; TeamSection.orgId := ts_orgId props |})
         <$> ts_team props
  else None.

(** [componentDidMount] of the element. Without [api], or without a team,
    [fetchData] raises [loading], and the call in its [try] throws a
    TypeError before anything is sent; the [catch] prints it. *)
Definition componentDidMount (props : TeamSectionProps) (w : TeamSection.World)
    : TeamSection.World :=
  match fetchProps props with
  | Some fetch => TeamSection.componentDidMount fetch w
  | None =>
      {| TeamSection.state :=
           {| TeamSection.loading := true;
              TeamSection.projects := TeamSection.projects (TeamSection.state w) |};
         TeamSection.network := TeamSection.network w;
         TeamSection.console := TeamSection.console w ++ ["TypeError"];
         TeamSection.inFlight := TeamSection.inFlight w |}
  end.

(** The requests a list of section elements sends when all of them mount. *)
Definition sectionFetches (sections : list TeamSectionProps) : list string :=
  sections ≫= (λ s, TeamSection.network (componentDidMount s TeamSection.initial)).

Definition isMount (e : TeamSection.Event) : bool :=
  match e with
  | TeamSection.Mount _ => true
  | _ => false
  end.

End TeamSectionView.

(** ** Teams, the render-prop component of the lazy dashboard *)

Module Teams.

Record State := {
  teams : option (list Team);   (* [None] is null *)
  initiallyLoaded : bool;
  fetching : bool;
  hasMore : option bool;
}.

(** A request with its query parameters. *)
Record World := {
  state : State;
  network : list (string * list (string * string));
  console : list string;
  inFlight : nat;
}.

Definition initial : World :=
  {| state := {| teams := None; initiallyLoaded := false;
                 fetching := false; hasMore := None |};
     network := []; console := []; inFlight := 0 |}.

(** [fetchData] up to its [await]. *)
Definition fetchData (orgId : string) (w : World) : World :=
  {| state := {| teams := teams (state w);
                 initiallyLoaded := initiallyLoaded (state w);
                 fetching := true; hasMore := hasMore (state w) |};
     network := network w
                ++ [("/organizations/" +:+ orgId +:+ "/teams/", [("lite", "1")])];
     console := console w;
     inFlight := S (inFlight w) |}.

Definition componentDidMount (orgId : string) (w : World) : World :=
  fetchData orgId w.

Inductive Event :=
  | Mount (orgId : string)
  | Resolve (data : list Team)
  | Reject (err : string).

(** [fetchData] after its [await]. *)
Definition step (w : World) (e : Event) : World :=
  match e, inFlight w with
  | Mount orgId, _ => componentDidMount orgId w
  | Resolve data, S n =>
      {| state := {| teams := Some data; initiallyLoaded := true;
                     fetching := false; hasMore := hasMore (state w) |};
         network := network w; console := console w; inFlight := n |}
  | Reject err, S n =>
      {| state := state w; network := network w;
         console := console w ++ [err]; inFlight := n |}
  | _, O => w
  end.

Definition run (w : World) (es : list Event) : World := fold_left step es w.

End Teams.

(** ** The lazy dashboard *)

Module LazyDashboard.

Record Props := {
  params_orgId : string;
  organization : Organization;
}.

(** What the function handed to [<Teams>] returns. *)
Inductive Children :=
  | Nothing                                   (* null *)
  | NoProjects                                (* [<NoProjectMessage>] without projects *)
  | Sections (sections : list TeamSectionProps)
  | LengthOfNull.                             (* [teams.length] read on null *)

Record View := {
  header : bool;
  children : Children;
}.

(** [const favorites = []] and [const projects = []] of [render]. *)
Definition favorites : list Project := [].
Definition projects : list Project := [].

Definition section (props : Props) (len : nat) (index : nat) (team : Team)
    : TeamSectionProps :=
  {| ts_key := t_slug team; ts_api := true; ts_orgId := params_orgId props;
     ts_team := Some team;
     ts_showBorder := negb (index =? len - 1);
     ts_titleLinked := hasAccess (organization props) "team:admin";
     ts_projects := Some [] |}.

Definition renderChildren (props : Props) (st : Teams.State) : Children :=
  if negb (Teams.initiallyLoaded st) || Teams.fetching st then Nothing
  else
    match Teams.teams st with
    | None => LengthOfNull
    | Some teams =>
        if (length teams =? 0) && (length favorites =? 0) then NoProjects
        else Sections (imap (section props (length teams)) teams)
    end.

Definition render (props : Props) (st : Teams.State) : View :=
  {| header := 0 <? length projects; children := renderChildren props st |}.

(** [<Teams orgId={organization.slug}>] mounts with the dashboard. *)
Definition mount (props : Props) : Teams.Event :=
  Teams.Mount (org_slug (organization props)).

End LazyDashboard.

(** ** The dashboard over fetched projects inside its wrapper *)

Module WrappedDashboard.

(** [render] of the wrapper: its own props are handed on, with [projects]
    and [loadingProjects] from its state. *)
Definition props (params_orgId : string) (wrapperProps : WithTeamProjects.Props)
    (st : WithTeamProjects.State) : DashboardWithProjects.Props :=
  {| DashboardWithProjects.teams := WithTeamProjects.teams wrapperProps;
     DashboardWithProjects.projects := WithTeamProjects.projects st;
     DashboardWithProjects.params_orgId := params_orgId;
     DashboardWithProjects.organization := WithTeamProjects.organization wrapperProps;
     DashboardWithProjects.loadingProjects := WithTeamProjects.loadingProjects st |}.

Definition render (getProjectsByTeams : DashboardWithProjects.GetProjectsByTeams)
    (isSuperuser : bool) (params_orgId : string)
    (wrapperProps : WithTeamProjects.Props) (st : WithTeamProjects.State) : View :=
  DashboardWithProjects.render getProjectsByTeams isSuperuser
    (props params_orgId wrapperProps st).

End WrappedDashboard.

(** The sections of what the lazy dashboard renders. *)
Definition lazySections (c : LazyDashboard.Children) : list TeamSectionProps :=
  match c with
  | LazyDashboard.Sections sections => sections
  | _ => []
  end.

(** ** Runs of the wrapper with the loading flag *)

Module Join.

(** The slots of a join whose request [i] has fulfilled with the [i]-th of
    [results] when [i] is in [done], and is in flight otherwise. *)
Definition slotsAfter (results : list (list Project)) (done : gset nat)
    : list (option Outcome) :=
  imap (λ i data, if bool_decide (i ∈ done) then Some (Fulfilled data) else None) results.

(** The requests of join [k] fulfil in the order [order], request [i] with
    the [i]-th of [results]. *)
Definition fulfilAll (k : nat) (results : list (list Project)) (order : list nat)
    : list WithTeamProjects.Event :=
  (λ i, WithTeamProjects.Settle k i (Fulfilled (default [] (results !! i)))) <$> order.

Definition loaded (results : list (list Project)) : WithTeamProjects.State :=
  {| WithTeamProjects.projects := JS.flat results;
     WithTeamProjects.loadingProjects := false |}.

(** An event that cannot start a fetch: a mount while the teams load, an
    update while they load or with a team list equal by value to the
    previous one, a request ending. *)
Definition quiet (e : WithTeamProjects.Event) : Prop :=
  match e with
  | WithTeamProjects.Mount props => WithTeamProjects.loadingTeams props = true
  | WithTeamProjects.Update prevProps props =>
      WithTeamProjects.loadingTeams props = true
      ∨ teamValue <$> WithTeamProjects.teams prevProps
        = teamValue <$> WithTeamProjects.teams props
  | WithTeamProjects.Settle _ _ _ => True
  end.

End Join.

(** * Properties *)

(** ** Objects, keys and sorting *)

Lemma fromEntries_snoc {V} (es : list (string * V)) k v :
  JS.fromEntries (es ++ [(k, v)]) = <[k := v]> (JS.fromEntries es).
Proof. unfold JS.fromEntries. by rewrite fold_left_app. Qed.

Lemma fromEntries_is_Some {V} (es : list (string * V)) k :
  is_Some (JS.fromEntries es !! k) ↔ k ∈ es.*1.
Proof.
  induction es as [|[k' v'] es IH] using rev_ind.
  - cbn. rewrite lookup_empty. split; [by intros [? ?] | by intros ?%elem_of_nil].
  - rewrite fromEntries_snoc, fmap_app, elem_of_app, <- IH. cbn.
    rewrite list_elem_of_singleton.
    destruct (decide (k' = k)) as [->|Hne].
    + rewrite lookup_insert_eq. split; eauto.
    + rewrite lookup_insert_ne by done. split; [eauto|]. intros [?|?]; congruence.
Qed.

Lemma fromEntries_lookup_Some {V} (es : list (string * V)) k v :
  JS.fromEntries es !! k = Some v → (k, v) ∈ es.
Proof.
  induction es as [|[k' v'] es IH] using rev_ind.
  - cbn. by rewrite lookup_empty.
  - rewrite fromEntries_snoc, elem_of_app, list_elem_of_singleton.
    destruct (decide (k' = k)) as [->|Hne].
    + rewrite lookup_insert_eq. intros [= ->]. by right.
    + rewrite lookup_insert_ne by done. auto.
Qed.

Lemma keys_elem_of {V} (o : gmap string V) k : k ∈ JS.keys o ↔ is_Some (o !! k).
Proof.
  unfold JS.keys. rewrite list_elem_of_fmap. split.
  - intros [[k' v] [-> Hin]]. apply elem_of_map_to_list in Hin. eauto.
  - intros [v Hv]. exists (k, v). split; [done|]. by apply elem_of_map_to_list.
Qed.

Lemma keys_NoDup {V} (o : gmap string V) : NoDup (JS.keys o).
Proof. apply NoDup_fst_map_to_list. Qed.

Lemma sort_Permutation xs : JS.sort xs ≡ₚ xs.
Proof. apply merge_sort_Permutation. Qed.


Lemma sort_keys_elem_of {V} (o : gmap string V) k :
  k ∈ JS.sort (JS.keys o) ↔ is_Some (o !! k).
Proof. by rewrite sort_Permutation, keys_elem_of. Qed.

Lemma sort_keys_NoDup {V} (o : gmap string V) : NoDup (JS.sort (JS.keys o)).
Proof. rewrite sort_Permutation. apply keys_NoDup. Qed.

(** ** The project order *)

#[global] Instance projectDisplayLe_total : Total projectDisplayLe.
Proof.
  intros a b. unfold projectDisplayLe.
  destruct (isBookmarked a), (isBookmarked b); auto;
    destruct (total String.le (p_name a) (p_name b)); auto.
Qed.

#[global] Instance projectDisplayLe_trans : Transitive projectDisplayLe.
Proof.
  intros a b c. unfold projectDisplayLe.
  destruct (isBookmarked a), (isBookmarked b), (isBookmarked c);
    try done; apply transitivity.
Qed.

Lemma sortProjects_Sorted ps : StronglySorted projectDisplayLe (sortProjects ps).
Proof. apply StronglySorted_merge_sort; apply _. Qed.

Lemma sortProjects_Permutation ps : sortProjects ps ≡ₚ ps.
Proof. apply merge_sort_Permutation. Qed.

(** ** [_.uniq] *)

Lemma existsb_sameValueZero value seen :
  existsb (Lodash.sameValueZero value) seen = true ↔ p_oid value ∈ p_oid <$> seen.
Proof.
  rewrite existsb_exists, list_elem_of_fmap. unfold Lodash.sameValueZero.
  split.
  - intros (x & Hin & Heq). apply Nat.eqb_eq in Heq.
    exists x. split; [done|]. by apply list_elem_of_In.
  - intros (x & Heq & Hin). exists x. split; [by apply list_elem_of_In|].
    by apply Nat.eqb_eq.
Qed.

Lemma baseUniq_elem_of seen array x :
  x ∈ Lodash.baseUniq seen array → x ∈ array ∧ p_oid x ∉ p_oid <$> seen.
Proof.
  revert seen. induction array as [|value rest IH]; intros seen; cbn.
  - by intros ?%elem_of_nil.
  - destruct (existsb _ seen) eqn:Hseen.
    + intros [? ?]%IH. split; [by right | done].
    + rewrite elem_of_cons. intros [->|[? Hnot]%IH].
      * split; [by left|]. rewrite <- existsb_sameValueZero. congruence.
      * split; [by right|]. intros Hx. apply Hnot. rewrite fmap_cons. by right.
Qed.

Lemma baseUniq_NoDup_oid seen array : NoDup (p_oid <$> Lodash.baseUniq seen array).
Proof.
  revert seen. induction array as [|value rest IH]; intros seen; cbn.
  - constructor.
  - destruct (existsb _ seen); [apply IH|].
    rewrite fmap_cons. constructor; [|apply IH].
    rewrite list_elem_of_fmap. intros (x & Heq & [_ Hnot]%baseUniq_elem_of).
    apply Hnot. rewrite fmap_cons, <- Heq. by left.
Qed.

Lemma baseUniq_complete seen array x :
  x ∈ array → p_oid x ∈ p_oid <$> (seen ++ Lodash.baseUniq seen array).
Proof.
  revert seen. induction array as [|value rest IH]; intros seen; cbn.
  - by intros ?%elem_of_nil.
  - rewrite elem_of_cons. destruct (existsb _ seen) eqn:Hseen.
    + intros [->|Hin]; [|by apply IH].
      apply existsb_sameValueZero in Hseen. rewrite fmap_app, elem_of_app. by left.
    + intros [->|Hin].
      * rewrite fmap_app, fmap_cons, elem_of_app, elem_of_cons. right. by left.
      * specialize (IH (value :: seen) Hin).
        rewrite fmap_app, fmap_cons, elem_of_app, elem_of_cons in IH.
        rewrite fmap_app, fmap_cons, elem_of_app, elem_of_cons.
        destruct IH as [[?|?]|?]; auto.
Qed.

(** The result of [_.uniq] never holds one object twice. *)
Lemma uniq_NoDup_oid array extra : NoDup (p_oid <$> Lodash.uniq array extra).
Proof. apply baseUniq_NoDup_oid. Qed.

(** It holds an identifier once when equal identifiers only come from one
    shared object. *)
Lemma uniq_NoDup_id_shared array extra :
  (∀ a b, a ∈ array → b ∈ array → p_id a = p_id b → p_oid a = p_oid b) →
  NoDup (p_id <$> Lodash.uniq array extra).
Proof.
  intros Hshared. unfold Lodash.uniq.
  pose proof (baseUniq_NoDup_oid [] array) as Hnd.
  assert (Hsub : ∀ x, x ∈ Lodash.baseUniq [] array → x ∈ array)
    by (intros x Hx; by apply baseUniq_elem_of in Hx as [? _]).
  induction (Lodash.baseUniq [] array) as [|x out IH]; cbn; [constructor|].
  rewrite fmap_cons in Hnd. apply NoDup_cons in Hnd as [Hx Hnd].
  constructor.
  - rewrite list_elem_of_fmap. intros (y & Heq & Hy). apply Hx.
    rewrite list_elem_of_fmap. exists y. split; [|done].
    apply Hshared; [apply Hsub; by left | apply Hsub; by right | done].
  - apply IH; [done|]. intros y Hy. apply Hsub. by right.
Qed.

(** ** The team sections *)

Lemma imap_index_snd {A} (f : nat → nat) (l : list A) :
  (imap (λ i x, (f i, x)) l).*2 = l.
Proof.
  revert f. induction l as [|x l IH]; intros f; [done|].
  cbn. f_equal. apply (IH (f ∘ S)).
Qed.

Lemma imap_pair_snd {A} (l : list A) : (imap pair l).*2 = l.
Proof. apply (imap_index_snd (λ i, i)). Qed.

Lemma teamSections_Some orgId adm tm pbt slugs ss :
  teamSections orgId adm tm pbt slugs = Some ss →
  ts_key <$> ss = slugs ∧ Forall (sectionOf orgId adm tm pbt) ss.
Proof.
  unfold teamSections. rewrite <- (imap_pair_snd slugs) at 2.
  generalize (length slugs) as len. generalize (imap pair slugs) as l.
  intros l len. rewrite mapM_Some.
  induction 1 as [|[index slug] s l' ss' Hs _ [IHk IHf]]; [by split|].
  unfold teamSection in Hs.
  assert (s = {| ts_key := slug; ts_api := false; ts_orgId := orgId; ts_team := tm !! slug;
                 ts_showBorder := negb (index =? len - 1);
                 ts_titleLinked := adm; ts_projects := pbt !! slug |}) as ->
    by (destruct (tm !! slug), adm; congruence).
  split.
  - cbn. by rewrite IHk.
  - constructor; [by repeat split | done].
Qed.

Lemma teamSections_is_Some orgId adm tm pbt slugs :
  Forall (λ slug, is_Some (tm !! slug)) slugs →
  is_Some (teamSections orgId adm tm pbt slugs).
Proof.
  intros Hall. unfold teamSections. apply mapM_is_Some_2.
  apply Forall_forall. intros [index slug] Hin. cbn. unfold teamSection.
  assert (slug ∈ slugs) as Hslug.
  { rewrite <- (imap_pair_snd slugs). apply list_elem_of_fmap. by exists (index, slug). }
  rewrite Forall_forall in Hall. destruct (Hall _ Hslug) as [team ->].
  by destruct adm.
Qed.

(** ** Grouping on the dashboard over embedded projects *)

Lemma projectsByTeam_is_Some teams slug :
  is_Some (Dashboard.projectsByTeam teams !! slug) ↔ slug ∈ t_slug <$> teams.
Proof.
  unfold Dashboard.projectsByTeam. rewrite fromEntries_is_Some.
  by rewrite <- list_fmap_compose.
Qed.

Lemma teamsMap_is_Some teams slug :
  is_Some (Dashboard.teamsMap teams !! slug) ↔ slug ∈ t_slug <$> teams.
Proof.
  unfold Dashboard.teamsMap. rewrite fromEntries_is_Some.
  by rewrite <- list_fmap_compose.
Qed.

Lemma projectsByTeam_lookup_Some teams slug ps :
  Dashboard.projectsByTeam teams !! slug = Some ps →
  ∃ team, team ∈ teams ∧ t_slug team = slug ∧ ps = sortProjects (t_projects team).
Proof.
  intros Hin%fromEntries_lookup_Some. apply list_elem_of_fmap in Hin as (team & Heq & Hin).
  exists team. by simplify_eq.
Qed.

Lemma dashboard_teamSlugs_elem_of teams slug :
  slug ∈ Dashboard.teamSlugs teams ↔ slug ∈ t_slug <$> teams.
Proof.
  unfold Dashboard.teamSlugs. by rewrite sort_keys_elem_of, projectsByTeam_is_Some.
Qed.

Lemma dashboard_sections_is_Some props :
  is_Some (teamSections (Dashboard.params_orgId props)
             (hasAccess (Dashboard.organization props) "team:admin")
             (Dashboard.teamsMap (Dashboard.teams props))
             (Dashboard.projectsByTeam (Dashboard.teams props))
             (Dashboard.teamSlugs (Dashboard.teams props))).
Proof.
  apply teamSections_is_Some, Forall_forall. intros slug Hin.
  by apply teamsMap_is_Some, dashboard_teamSlugs_elem_of.
Qed.

(** C4, as the code has it. The grouped mapping has a key for exactly the
    slugs of the team list, and the value under a key is the embedded
    project list of a team with that slug, reordered by [sortProjects]:
    bookmarked first, then by name. Nothing is removed from it, so it
    repeats an identifier exactly when the embedded list does. *)
Theorem C4_grouping_sorts_without_dedup (teams : list Team) :
  let grouped := Dashboard.projectsByTeam teams in
  (∀ slug, is_Some (grouped !! slug) ↔ slug ∈ t_slug <$> teams)
  ∧ (∀ slug ps, grouped !! slug = Some ps →
       ∃ team, team ∈ teams ∧ t_slug team = slug
               ∧ ps = sortProjects (t_projects team)
               ∧ StronglySorted projectDisplayLe ps
               ∧ ps ≡ₚ t_projects team
               ∧ (NoDup (p_id <$> ps) ↔ NoDup (p_id <$> t_projects team))).
Proof.
  cbn. split; [apply projectsByTeam_is_Some|].
  intros slug ps (team & Hin & Hslug & ->)%projectsByTeam_lookup_Some.
  exists team. repeat split; try done.
  - apply sortProjects_Sorted.
  - apply sortProjects_Permutation.
  - by rewrite sortProjects_Permutation.
  - by rewrite sortProjects_Permutation.
Qed.

(** C4 as stated fails: a team whose embedded list names project 1 twice
    is grouped with project 1 twice. *)
Lemma C4_counterexample :
  Dashboard.projectsByTeam [Sample.team_twice] !! "c"
    = Some [Sample.zulu_a; Sample.zulu_a]
  ∧ ¬ NoDup (p_id <$> [Sample.zulu_a; Sample.zulu_a]).
Proof.
  split; [by vm_compute|].
  cbn. intros Hnd. apply NoDup_cons in Hnd as [Hnot _]. apply Hnot. by left.
Qed.

(** C5 at two teams that share project 1: the flattened collection of the
    dashboard, and the one the banner hands on, keep both objects of
    project 1, so the identifier occurs twice. *)
Theorem C5_shared_project_listed_twice :
  Dashboard.projects [Sample.team_a; Sample.team_b]
    = [Sample.zulu_a; Sample.alpha; Sample.zulu_b]
  ∧ p_id <$> Dashboard.projects [Sample.team_a; Sample.team_b] = ["1"; "2"; "1"]
  ∧ LightWeightInstallPromptBanner.render [Sample.team_a; Sample.team_b] false None
    = Some [Sample.zulu_a; Sample.alpha; Sample.zulu_b].
Proof. by vm_compute. Qed.

(** ** Which state the dashboards render *)

Lemma groupAll_oneEntryPerTeam : DashboardWithProjects.oneEntryPerTeam Sample.groupAll.
Proof.
  intros teams projects isSuperuser slug. unfold Sample.groupAll.
  by rewrite fromEntries_is_Some, <- list_fmap_compose.
Qed.


(** The dashboard over fetched projects decides the empty state on the
    keys of the grouping: a single fresh project gets the resources panel
    when the grouping has a key or the project is bookmarked, and the empty
    state otherwise. *)
Lemma projects_dashboard_single_fresh_project
    (getProjectsByTeams : DashboardWithProjects.GetProjectsByTeams)
    (isSuperuser : bool) (props : DashboardWithProjects.Props) (p : Project) :
  DashboardWithProjects.loadingProjects props = false →
  DashboardWithProjects.projects props = [p] →
  firstEvent p = None →
  match DashboardWithProjects.render getProjectsByTeams isSuperuser props with
  | NoProjectMessage _ =>
      DashboardWithProjects.teamSlugs getProjectsByTeams isSuperuser props = []
      ∧ isBookmarked p = false
  | Content header _ resources => header = true ∧ resources = true
  | TypeError => True
  | _ => False
  end.
Proof.
  intros Hload Hprojects Hfirst.
  unfold DashboardWithProjects.render, DashboardWithProjects.showEmptyMessage,
    DashboardWithProjects.favorites.
  rewrite Hload, Hprojects.
  destruct (DashboardWithProjects.teamSlugs _ _ _) as [|slug slugs] eqn:Hslugs.
  - destruct (isBookmarked p) eqn:Hb.
    + rewrite filter_cons_True by (by rewrite Hb).
      destruct (teamSections _ _ _ _ _); cbn; [|done].
      unfold showResources. cbn. by rewrite Hfirst.
    + rewrite filter_cons_False by (rewrite Hb; cbn; tauto). by cbn.
  - cbn [length Nat.eqb andb].
    destruct (teamSections _ _ _ _ _); cbn; [|done].
    unfold showResources. cbn. by rewrite Hfirst.
Qed.

(** ** [_.isEqual] compares by value *)

Lemma array_isEqual_spec {A B} (eq : A → A → bool) (value : A → B) xs ys :
  (∀ x y, eq x y = true ↔ value x = value y) →
  Lodash.array_isEqual eq xs ys = true ↔ value <$> xs = value <$> ys.
Proof.
  intros Heq. revert ys. induction xs as [|x xs IH]; intros [|y ys]; cbn; try done.
  rewrite andb_true_iff, Heq, IH. split.
  - by intros [-> ->].
  - intros [= ? ?]. done.
Qed.

Lemma project_isEqual_spec a b :
  Lodash.project_isEqual a b = true ↔ projectValue a = projectValue b.
Proof.
  unfold Lodash.project_isEqual, projectValue.
  rewrite !andb_true_iff, !bool_decide_eq_true. split.
  - intros ((((-> & ->) & ->) & ->) & ->). done.
  - intros [= ? ? ? ? ?]. done.
Qed.

Lemma team_isEqual_spec a b :
  Lodash.team_isEqual a b = true ↔ teamValue a = teamValue b.
Proof.
  unfold Lodash.team_isEqual, teamValue.
  rewrite andb_true_iff, bool_decide_eq_true,
    (array_isEqual_spec _ projectValue _ _ project_isEqual_spec).
  split.
  - by intros [-> ->].
  - intros [= ? ?]. done.
Qed.

Lemma isEqual_spec a b :
  Lodash.isEqual a b = true ↔ teamValue <$> a = teamValue <$> b.
Proof. apply array_isEqual_spec, team_isEqual_spec. Qed.

(** ** The wrapper with the loading flag *)

Import WithTeamProjects.


Lemma allFulfilled_hasRejected slots :
  hasRejected slots = true → allFulfilled slots = None.
Proof.
  unfold hasRejected, allFulfilled. rewrite existsb_exists.
  intros (slot & Hin & Hrej). apply mapM_None_2, Exists_exists.
  exists slot. split; [by apply list_elem_of_In|].
  by destruct slot as [[]|].
Qed.

Lemma allFulfilled_insert_Rejected slots i err :
  slots !! i = Some None → allFulfilled (<[i := Some (Rejected err)]> slots) = None.
Proof.
  intros Hi. apply allFulfilled_hasRejected. unfold hasRejected.
  apply existsb_exists. exists (Some (Rejected err)). split; [|done].
  apply list_elem_of_In, list_elem_of_lookup. exists i.
  apply list_lookup_insert_eq. by eapply lookup_lt_Some.
Qed.









Lemma fetchProjects_network props w :
  network (fetchProjects props w) = network w ++ getTeamsProjectEndpoints props
  ∧ length (getTeamsProjectEndpoints props) = length (teams props).
Proof. split; [done|]. unfold getTeamsProjectEndpoints. apply length_map. Qed.

(** C2, as the code has it. A props update leaves the wrapper alone when
    the new team list equals the previous one by value, whatever array and
    whatever objects carry it, and also while the team list is loading; it
    runs [fetchProjects], which sends one request per team of the new list,
    exactly when the list is loaded and differs by value. *)
Theorem C2_update_refetches_on_loaded_change (prevProps props : Props) (w : World) :
  let sameByValue := teamValue <$> teams prevProps = teamValue <$> teams props in
  (sameByValue → componentDidUpdate prevProps props w = w)
  ∧ (loadingTeams props = true → componentDidUpdate prevProps props w = w)
  ∧ (¬ sameByValue → loadingTeams props = false →
       componentDidUpdate prevProps props w = fetchProjects props w
       ∧ network (componentDidUpdate prevProps props w)
         = network w ++ getTeamsProjectEndpoints props
       ∧ length (getTeamsProjectEndpoints props) = length (teams props)).
Proof.
  cbv zeta. split; [|split].
  - intros Hsame%isEqual_spec. unfold componentDidUpdate.
    rewrite Hsame. by rewrite andb_false_r.
  - intros Hload. unfold componentDidUpdate. by rewrite Hload.
  - intros Hdiff Hload.
    assert (componentDidUpdate prevProps props w = fetchProjects props w) as ->.
    { unfold componentDidUpdate. rewrite Hload.
      destruct (Lodash.isEqual _ _) eqn:Heq; [|done].
      by apply isEqual_spec in Heq. }
    split; [done|]. apply fetchProjects_network.
Qed.

(** C2 as stated fails: the team list changes by value while it is still
    loading, and the update sends nothing. *)
Lemma C2_counterexample :
  teamValue <$> [] ≠ teamValue <$> [Sample.team_a]
  ∧ componentDidUpdate (Sample.wrapperProps [] 0 true)
      (Sample.wrapperProps [Sample.team_a] 1 true) initial = initial.
Proof. split; [done | by vm_compute]. Qed.

(** The list is compared in order: the same teams in another order count
    as a change. *)
Lemma update_refetches_on_reordered_teams :
  network (componentDidUpdate
             (Sample.wrapperProps [Sample.team_a; Sample.team_b] 0 false)
             (Sample.wrapperProps [Sample.team_b; Sample.team_a] 1 false) initial)
  = ["/teams/acme/b/projects/"; "/teams/acme/a/projects/"].
Proof. by vm_compute. Qed.

(** The wrapper without the flag compares the props objects: a new props
    object with the same team list sends every request again, and mounting
    sends them whatever the props are. *)
Lemma plain_wrapper_refetches_on_new_props_object prevProps props w :
  WithTeamProjectsPlain.props_instance prevProps ≠ WithTeamProjectsPlain.props_instance props →
  WithTeamProjectsPlain.componentDidUpdate prevProps props w
  = WithTeamProjectsPlain.fetchProjects props w
  ∧ WithTeamProjectsPlain.componentDidMount props w
    = WithTeamProjectsPlain.fetchProjects props w.
Proof.
  intros Hne. split; [|done]. unfold WithTeamProjectsPlain.componentDidUpdate.
  by apply Nat.eqb_neq in Hne as ->.
Qed.

(** C8. Mounting or updating with props whose team list is still loading
    changes nothing: no request, no join, no state. Whenever a step sends a
    request, it is a mount or an update whose team list has finished
    loading. *)
Theorem C8_no_fetch_while_teams_load (w : World) (e : Event) :
  (∀ props, eventProps e = Some props → loadingTeams props = true → step w e = w)
  ∧ (network (step w e) ≠ network w →
       ∃ props, eventProps e = Some props ∧ loadingTeams props = false).
Proof.
  split.
  - intros props Hprops Hload. destruct e as [p|pp p|k i o]; simplify_eq/=.
    + unfold componentDidMount. by rewrite Hload.
    + unfold componentDidUpdate. by rewrite Hload.
  - destruct e as [p|pp p|k i o]; cbn.
    + unfold componentDidMount. destruct (loadingTeams p) eqn:Hload; [done|]. eauto.
    + unfold componentDidUpdate. destruct (loadingTeams p) eqn:Hload; [done|]. eauto.
    + intros Hnet. exfalso. apply Hnet. unfold settle.
      destruct (joins w !! k) as [slots|]; [|done].
      by destruct (slots !! i) as [[?|]|].
Qed.

(** Both halves of C8 at work: nothing is sent while the teams load, the
    requests go out with the update that ends the loading. *)
Lemma wrapper_waits_for_teams :
  let loadingProps := Sample.wrapperProps [] 0 true in
  let loadedProps := Sample.wrapperProps [Sample.team_a; Sample.team_b] 1 false in
  run initial [Mount loadingProps] = initial
  ∧ network (run initial [Mount loadingProps; Update loadingProps loadedProps])
    = ["/teams/acme/a/projects/"; "/teams/acme/b/projects/"].
Proof. by vm_compute. Qed.

(** C10. With an empty team list in every mount and update, the wrapper
    sends no request and creates no join, so that no callback can run: in
    every state it reaches, [loadingProjects] is true and [projects] is
    empty. *)
Theorem C10_empty_team_list_never_loads (es : list Event) :
  Forall (λ e, eventTeams e = []) es →
  loadingProjects (state (run initial es)) = true
  ∧ projects (state (run initial es)) = []
  ∧ network (run initial es) = []
  ∧ joins (run initial es) = [].
Proof.
  intros Hall.
  assert (Hinv : ∀ w, loadingProjects (state w) = true ∧ projects (state w) = []
                       ∧ network w = [] ∧ joins w = [] →
                       loadingProjects (state (run w es)) = true
                       ∧ projects (state (run w es)) = []
                       ∧ network (run w es) = [] ∧ joins (run w es) = []).
  { induction Hall as [|e es He _ IH]; [done|].
    intros w (Hload & Hprojects & Hnet & Hjoins). cbn. apply IH.
    assert (Hfetch : ∀ props, teams props = [] →
              loadingProjects (state (fetchProjects props w)) = true
              ∧ projects (state (fetchProjects props w)) = []
              ∧ network (fetchProjects props w) = []
              ∧ joins (fetchProjects props w) = []).
    { intros props Hteams.
      unfold fetchProjects, getTeamsProjectPromises, getTeamsProjectEndpoints.
      rewrite Hteams. cbn. by rewrite Hnet, Hjoins. }
    destruct e as [p|pp p|k i o]; cbn [step].
    - unfold componentDidMount. destruct (negb _); [by apply Hfetch | done].
    - unfold componentDidUpdate. destruct (_ && _); [by apply Hfetch | done].
    - unfold settle. by rewrite Hjoins, lookup_nil. }
  by apply Hinv.
Qed.

Lemma C10_witness :
  let es := [Mount (Sample.wrapperProps [] 0 false);
             Update (Sample.wrapperProps [] 0 false) (Sample.wrapperProps [] 1 false);
             Settle 0 0 (Fulfilled [Sample.zulu_a])] in
  loadingProjects (state (run initial es)) = true
  ∧ projects (state (run initial es)) = []
  ∧ network (run initial es) = []
  ∧ joins (run initial es) = [].
Proof.
  apply (C10_empty_team_list_never_loads
           [Mount (Sample.wrapperProps [] 0 false);
            Update (Sample.wrapperProps [] 0 false) (Sample.wrapperProps [] 1 false);
            Settle 0 0 (Fulfilled [Sample.zulu_a])]).
  repeat constructor.
Defined.

(** ** Failed requests *)

(** C3, as the code has it. A rejected request leaves the state of the
    component as it was while the request was in flight. The team section
    prints the error to the console and its [loading] stays true; the two
    wrappers have no rejection handler, and a rejected per-team request
    leaves the wrapper's state alone. No state has an error field. *)
Theorem C3_rejection_leaves_state (err : string) :
  (∀ w, TeamSection.state (TeamSection.step w (TeamSection.Reject err))
        = TeamSection.state w)
  ∧ (∀ props,
       TeamSection.run TeamSection.initial
         [TeamSection.Mount props; TeamSection.Reject err]
       = {| TeamSection.state := {| TeamSection.loading := true;
                                    TeamSection.projects := [] |};
            TeamSection.network :=
              [teamProjectsEndpoint (TeamSection.orgId props)
                 (t_slug (TeamSection.team props))];
            TeamSection.console := [err];
            TeamSection.inFlight := 0 |})
  ∧ (∀ w, WithUsersTeams.state (WithUsersTeams.step w (WithUsersTeams.Reject err))
          = WithUsersTeams.state w)
  ∧ (∀ organization,
       WithUsersTeams.run WithUsersTeams.initial
         [WithUsersTeams.Mount organization; WithUsersTeams.Reject err]
       = {| WithUsersTeams.state := {| WithUsersTeams.teams := [] |};
            WithUsersTeams.network := [WithUsersTeams.getUsersTeamsEndpoint organization];
            WithUsersTeams.inFlight := 0 |})
  ∧ (∀ w k i, state (settle k i (Rejected err) w) = state w).
Proof.
  repeat split.
  - intros w. unfold TeamSection.step. by destruct (TeamSection.inFlight w).
  - intros w. unfold WithUsersTeams.step. by destruct (WithUsersTeams.inFlight w).
  - intros w k i. unfold settle.
    destruct (joins w !! k) as [slots|]; [|done].
    destruct (slots !! i) as [[?|]|] eqn:Hi; [done| |done].
    cbn. by rewrite allFulfilled_insert_Rejected.
Qed.

(** C3 as stated fails: the team section mounts, its request rejects, and
    its [loading] flag is still up. *)
Lemma C3_counterexample :
  TeamSection.loading
    (TeamSection.state
       (TeamSection.run TeamSection.initial
          [TeamSection.Mount {| TeamSection.team := Sample.team_a;
                                TeamSection.orgId := "acme" |};
           TeamSection.Reject "500"])) = true.
Proof. reflexivity. Qed.

(** * Further properties of the dashboards *)

Lemma baseUniq_nil array : Lodash.baseUniq [] array = [] ↔ array = [].
Proof. by destruct array. Qed.

Lemma concat_eq_nil {A} (xss : list (list A)) :
  concat xss = [] ↔ Forall (λ xs, xs = []) xss.
Proof.
  induction xss as [|xs xss IH]; cbn.
  - split; [constructor | done].
  - rewrite Forall_cons, <- IH. split.
    + by intros [-> ->]%app_eq_nil.
    + by intros [-> ->].
Qed.

Lemma dashboard_projects_nil teams :
  Dashboard.projects teams = [] ↔ ∀ team, team ∈ teams → t_projects team = [].
Proof.
  unfold Dashboard.projects, Lodash.uniq, Lodash.flatten.
  rewrite baseUniq_nil, concat_eq_nil, Forall_fmap, Forall_forall. done.
Qed.

Lemma dashboard_showEmptyMessage_spec teams :
  Dashboard.showEmptyMessage teams = true ↔ Dashboard.projects teams = [].
Proof.
  unfold Dashboard.showEmptyMessage, Dashboard.favorites.
  destruct (Dashboard.projects teams); cbn; split; done.
Qed.

(** What the dashboard renders once the teams are loaded without error. *)
Lemma dashboard_render_loaded props :
  Dashboard.loadingTeams props = false →
  Dashboard.error props = None →
  (Dashboard.projects (Dashboard.teams props) = []
   ∧ Dashboard.render props = NoProjectMessage [])
  ∨ (Dashboard.projects (Dashboard.teams props) ≠ []
     ∧ ∃ sections,
         teamSections (Dashboard.params_orgId props)
           (hasAccess (Dashboard.organization props) "team:admin")
           (Dashboard.teamsMap (Dashboard.teams props))
           (Dashboard.projectsByTeam (Dashboard.teams props))
           (Dashboard.teamSlugs (Dashboard.teams props)) = Some sections
         ∧ Dashboard.render props
           = Content true sections (showResources (Dashboard.projects (Dashboard.teams props)))).
Proof.
  intros Hload Herr. unfold Dashboard.render. rewrite Hload, Herr. cbn.
  destruct (Dashboard.showEmptyMessage _) eqn:Hempty.
  - apply dashboard_showEmptyMessage_spec in Hempty. left. by rewrite Hempty.
  - right.
    assert (Dashboard.projects (Dashboard.teams props) ≠ []) as Hne.
    { intros Hnil%dashboard_showEmptyMessage_spec. congruence. }
    split; [done|].
    destruct (dashboard_sections_is_Some props) as [ss Hss]. exists ss.
    split; [done|]. rewrite Hss. cbn.
    by destruct (Dashboard.projects (Dashboard.teams props)).
Qed.

(** X1. Once the teams are loaded without error, the dashboard over
    embedded projects shows the empty state exactly when no team embeds a
    project, however many teams there are; in every other case it shows the
    content with the header. *)
Theorem dashboard_empty_state_iff_no_embedded_project (props : Dashboard.Props) :
  Dashboard.loadingTeams props = false →
  Dashboard.error props = None →
  (Dashboard.render props = NoProjectMessage []
   ↔ ∀ team, team ∈ Dashboard.teams props → t_projects team = [])
  ∧ match Dashboard.render props with
    | NoProjectMessage ps => ps = []
    | Content header _ _ => header = true
    | _ => False
    end.
Proof.
  intros Hload Herr.
  destruct (dashboard_render_loaded props Hload Herr)
    as [[Hnil Hrender]|[Hne (ss & _ & Hrender)]]; rewrite Hrender.
  - split; [|done]. split; [|done]. intros _. by apply dashboard_projects_nil.
  - split; [|done]. split; [done|].
    intros Hall%dashboard_projects_nil. done.
Qed.

Lemma dashboard_empty_state_witness :
  (Dashboard.render (Sample.dashboardProps [{| t_slug := "a"; t_projects := [] |}])
     = NoProjectMessage []
   ↔ ∀ team, team ∈ [{| t_slug := "a"; t_projects := [] |}] → t_projects team = [])
  ∧ match Dashboard.render (Sample.dashboardProps [{| t_slug := "a"; t_projects := [] |}]) with
    | NoProjectMessage ps => ps = []
    | Content header _ _ => header = true
    | _ => False
    end.
Proof.
  apply (dashboard_empty_state_iff_no_embedded_project
           (Sample.dashboardProps [{| t_slug := "a"; t_projects := [] |}]));
    reflexivity.
Defined.

(** ** Borders *)

Lemma imap_border {A} (l : list A) (k : nat) :
  imap (λ i _, negb (i + k =? length l + k - 1)) l
  = replicate (length l - 1) true ++ match l with [] => [] | _ => [false] end.
Proof.
  revert k. induction l as [|x l IH]; intros k; [done|].
  cbn [imap length]. destruct l as [|y l].
  - cbn. replace (k =? k - 0) with true; [done|].
    symmetry. apply Nat.eqb_eq. lia.
  - replace (negb (0 + k =? S (length (y :: l)) + k - 1)) with true.
    2:{ symmetry. apply negb_true_iff, Nat.eqb_neq. cbn. lia. }
    replace (S (length (y :: l)) - 1) with (S (length (y :: l) - 1)) by (cbn; lia).
    cbn [replicate app]. f_equal.
    rewrite <- (IH (S k)). apply imap_ext. intros i z _. cbn.
    f_equal. apply eq_iff_eq_true. rewrite !Nat.eqb_eq. lia.
Qed.

Lemma teamSections_lookup orgId adm tm pbt slugs ss i s :
  teamSections orgId adm tm pbt slugs = Some ss →
  ss !! i = Some s →
  ts_showBorder s = negb (i =? length slugs - 1).
Proof.
  unfold teamSections. rewrite mapM_Some. intros Hall Hs.
  destruct (Forall2_lookup_r _ _ _ _ _ Hall Hs) as ([j slug] & Hj & Hf).
  rewrite list_lookup_imap in Hj.
  destruct (slugs !! i) as [slug'|]; simplify_eq/=.
  unfold teamSection in Hf. destruct (tm !! slug), adm; by simplify_eq/=.
Qed.

Lemma teamSections_borders orgId adm tm pbt slugs ss :
  teamSections orgId adm tm pbt slugs = Some ss →
  ts_showBorder <$> ss
  = replicate (length ss - 1) true ++ match ss with [] => [] | _ => [false] end.
Proof.
  intros Hss.
  assert (length slugs = length ss) as Hlen.
  { apply teamSections_Some in Hss as [<- _]. by rewrite length_fmap. }
  rewrite <- (imap_border ss 0).
  apply list_eq. intros i. rewrite list_lookup_fmap, list_lookup_imap.
  destruct (ss !! i) as [s|] eqn:Hs; [|done]. cbn. f_equal.
  rewrite (teamSections_lookup _ _ _ _ _ _ _ _ Hss Hs), Hlen.
  f_equal. apply eq_iff_eq_true. rewrite !Nat.eqb_eq. lia.
Qed.

(** X2. In the content either dashboard renders, every team section has
    its bottom border except the last one. *)
Theorem sections_bordered_except_last
    (props : Dashboard.Props)
    (getProjectsByTeams : DashboardWithProjects.GetProjectsByTeams)
    (isSuperuser : bool) (props' : DashboardWithProjects.Props) :
  let borders v :=
    ts_showBorder <$> mountedSections v
    = replicate (length (mountedSections v) - 1) true
      ++ match mountedSections v with [] => [] | _ => [false] end in
  borders (Dashboard.render props)
  ∧ borders (DashboardWithProjects.render getProjectsByTeams isSuperuser props').
Proof.
  cbv zeta. split.
  - unfold Dashboard.render.
    destruct (Dashboard.loadingTeams props); [done|].
    destruct (JS.defined _); [done|].
    destruct (Dashboard.showEmptyMessage _); [done|].
    destruct (teamSections _ _ _ _ _) as [ss|] eqn:Hss; [|done].
    cbn. by eapply teamSections_borders.
  - unfold DashboardWithProjects.render.
    destruct (DashboardWithProjects.loadingProjects props'); [done|].
    destruct (DashboardWithProjects.showEmptyMessage _ _ _); [done|].
    destruct (teamSections _ _ _ _ _) as [ss|] eqn:Hss; [|done].
    cbn. by eapply teamSections_borders.
Qed.

(** ** Teams that share a slug, and teams that do not *)

Lemma fold_insert_lookup_notin {V} (es : list (string * V)) (m : gmap string V) k :
  k ∉ es.*1 → fold_left (λ m e, <[e.1 := e.2]> m) es m !! k = m !! k.
Proof.
  revert m. induction es as [|[k' v'] es IH]; intros m Hnot; [done|].
  cbn in *. apply not_elem_of_cons in Hnot as [Hne Hnot].
  rewrite IH by done. by rewrite lookup_insert_ne.
Qed.

Lemma fromEntries_lookup_last {V} (es1 es2 : list (string * V)) k v :
  k ∉ es2.*1 → JS.fromEntries (es1 ++ (k, v) :: es2) !! k = Some v.
Proof.
  intros Hnot. unfold JS.fromEntries. rewrite fold_left_app. cbn.
  rewrite fold_insert_lookup_notin by done. apply lookup_insert_eq.
Qed.

Lemma dashboard_lookup_last (earlier later : list Team) (team : Team) :
  t_slug team ∉ t_slug <$> later →
  Dashboard.projectsByTeam (earlier ++ team :: later) !! t_slug team
    = Some (sortProjects (t_projects team))
  ∧ Dashboard.teamsMap (earlier ++ team :: later) !! t_slug team = Some team.
Proof.
  intros Hnot. unfold Dashboard.projectsByTeam, Dashboard.teamsMap.
  rewrite !map_app. cbn [map]. split.
  - apply fromEntries_lookup_last.
    change (map ?f later) with (f <$> later). by rewrite <- list_fmap_compose.
  - apply fromEntries_lookup_last.
    change (map ?f later) with (f <$> later). by rewrite <- list_fmap_compose.
Qed.



Lemma dashboard_lookup_NoDup teams team :
  NoDup (t_slug <$> teams) → team ∈ teams →
  Dashboard.projectsByTeam teams !! t_slug team = Some (sortProjects (t_projects team))
  ∧ Dashboard.teamsMap teams !! t_slug team = Some team.
Proof.
  intros Hnd Hin. apply list_elem_of_split in Hin as (earlier & later & ->).
  apply dashboard_lookup_last.
  rewrite fmap_app, fmap_cons in Hnd.
  apply NoDup_app in Hnd as (_ & _ & Hnd). by apply NoDup_cons in Hnd as [? _].
Qed.

Lemma sections_lookup_key orgId adm tm pbt slugs ss slug :
  teamSections orgId adm tm pbt slugs = Some ss → slug ∈ slugs →
  ∃ s, s ∈ ss ∧ ts_key s = slug ∧ ts_orgId s = orgId
       ∧ ts_team s = tm !! slug ∧ ts_projects s = pbt !! slug.
Proof.
  intros [Hkeys Hall]%teamSections_Some Hin. rewrite <- Hkeys in Hin.
  apply list_elem_of_fmap in Hin as (s & -> & Hs). exists s.
  rewrite Forall_forall in Hall. destruct (Hall s Hs) as (? & ? & ? & ?). done.
Qed.

(** X4. When the slugs of the team list are pairwise different, the
    loaded dashboard with a project lays out as many sections as there are
    teams, and each team has its section, holding that team and its
    embedded projects in display order. *)
Theorem distinct_slugs_one_section_each (props : Dashboard.Props) :
  Dashboard.loadingTeams props = false →
  Dashboard.error props = None →
  Dashboard.projects (Dashboard.teams props) ≠ [] →
  NoDup (t_slug <$> Dashboard.teams props) →
  let sections := mountedSections (Dashboard.render props) in
  length sections = length (Dashboard.teams props)
  ∧ ∀ team, team ∈ Dashboard.teams props →
      ∃ s, s ∈ sections ∧ ts_key s = t_slug team ∧ ts_team s = Some team
           ∧ ts_projects s = Some (sortProjects (t_projects team)).
Proof.
  intros Hload Herr Hne Hnd. cbv zeta.
  destruct (dashboard_render_loaded props Hload Herr)
    as [[Hnil _]|[_ (ss & Hss & Hrender)]]; [done|].
  rewrite Hrender. cbn [mountedSections]. split.
  - pose proof (teamSections_Some _ _ _ _ _ _ Hss) as [Hkeys _].
    rewrite <- (length_fmap ts_key ss), Hkeys, <- (length_fmap t_slug (Dashboard.teams props)).
    apply Permutation_length, NoDup_Permutation; [apply sort_keys_NoDup | done |].
    apply dashboard_teamSlugs_elem_of.
  - intros team Hin.
    destruct (dashboard_lookup_NoDup _ _ Hnd Hin) as [Hgrouped Hteam].
    assert (t_slug team ∈ Dashboard.teamSlugs (Dashboard.teams props)) as Hslug.
    { apply dashboard_teamSlugs_elem_of, list_elem_of_fmap. by exists team. }
    destruct (sections_lookup_key _ _ _ _ _ _ _ Hss Hslug) as (s & Hs & Hk & _ & Ht & Hp).
    exists s. repeat split; [done..|congruence|congruence].
Qed.

Lemma distinct_slugs_witness :
  let sections :=
    mountedSections (Dashboard.render (Sample.dashboardProps [Sample.team_b; Sample.team_a])) in
  length sections = length [Sample.team_b; Sample.team_a]
  ∧ ∀ team, team ∈ [Sample.team_b; Sample.team_a] →
      ∃ s, s ∈ sections ∧ ts_key s = t_slug team ∧ ts_team s = Some team
           ∧ ts_projects s = Some (sortProjects (t_projects team)).
Proof.
  apply (distinct_slugs_one_section_each (Sample.dashboardProps [Sample.team_b; Sample.team_a]));
    [reflexivity | reflexivity | by vm_compute |].
  cbn. repeat constructor; rewrite ?elem_of_cons, ?elem_of_nil; intros H;
    repeat destruct H as [H|H]; discriminate H || done.
Defined.

(** ** The flattened project collection *)

Lemma baseUniq_sublist seen array : Lodash.baseUniq seen array `sublist_of` array.
Proof.
  revert seen. induction array as [|value rest IH]; intros seen; cbn; [done|].
  destruct (existsb _ seen).
  - by apply sublist_cons.
  - by apply sublist_skip.
Qed.

Lemma baseUniq_fixed seen array :
  NoDup (p_oid <$> array) →
  (∀ x, x ∈ array → p_oid x ∉ p_oid <$> seen) →
  Lodash.baseUniq seen array = array.
Proof.
  revert seen. induction array as [|value rest IH]; intros seen Hnd Hfresh; [done|].
  cbn. rewrite fmap_cons in Hnd. apply NoDup_cons in Hnd as [Hvalue Hnd].
  destruct (existsb _ seen) eqn:Hseen.
  - apply existsb_sameValueZero in Hseen. exfalso.
    apply (Hfresh value); [by left | done].
  - f_equal. apply IH; [done|]. intros x Hx. rewrite fmap_cons, not_elem_of_cons.
    split; [|apply Hfresh; by right].
    intros Heq. apply Hvalue. rewrite <- Heq. apply list_elem_of_fmap. by exists x.
Qed.

(** X6. The project collection of the dashboard and of the banner keeps
    the objects of the teams' embedded lists in their order, each object
    once and none lost; it is the whole concatenation when no object occurs
    twice, and deduplicating it again changes nothing. *)
Theorem dashboard_projects_once_per_object (teams : list Team) :
  let all := Lodash.flatten (map t_projects teams) in
  let projects := Dashboard.projects teams in
  projects `sublist_of` all
  ∧ NoDup (p_oid <$> projects)
  ∧ (∀ p, p ∈ all → p_oid p ∈ p_oid <$> projects)
  ∧ (NoDup (p_oid <$> all) → projects = all)
  ∧ Lodash.uniq projects "id" = projects
  ∧ LightWeightInstallPromptBanner.render teams false None = Some projects.
Proof.
  cbv zeta. unfold Dashboard.projects, Lodash.uniq. repeat split.
  - apply baseUniq_sublist.
  - apply baseUniq_NoDup_oid.
  - intros p Hp. by apply (baseUniq_complete []).
  - intros Hnd. apply baseUniq_fixed; [done|]. intros x _. cbn. apply not_elem_of_nil.
  - apply baseUniq_fixed; [apply baseUniq_NoDup_oid|].
    intros x _. cbn. apply not_elem_of_nil.
Qed.

(** * Further properties of the dashboard over fetched projects *)

Lemma projects_teamsMap_is_Some teams slug :
  is_Some (DashboardWithProjects.teamsMap teams !! slug) ↔ slug ∈ t_slug <$> teams.
Proof.
  unfold DashboardWithProjects.teamsMap. rewrite fromEntries_is_Some.
  by rewrite <- list_fmap_compose.
Qed.

Lemma projects_teamSlugs_elem_of g su props slug :
  slug ∈ DashboardWithProjects.teamSlugs g su props
  ↔ is_Some (g (DashboardWithProjects.teams props)
               (sortProjects (DashboardWithProjects.projects props)) su !! slug).
Proof. unfold DashboardWithProjects.teamSlugs. apply sort_keys_elem_of. Qed.

Lemma showEmptyMessage_false_of_slug g su props slug :
  slug ∈ DashboardWithProjects.teamSlugs g su props →
  DashboardWithProjects.showEmptyMessage g su props = false.
Proof.
  unfold DashboardWithProjects.showEmptyMessage.
  destruct (DashboardWithProjects.teamSlugs g su props); [by intros ?%elem_of_nil | done].
Qed.

Lemma projects_dashboard_sections_found
    (getProjectsByTeams : DashboardWithProjects.GetProjectsByTeams)
    (isSuperuser : bool) (props : DashboardWithProjects.Props) :
  DashboardWithProjects.oneEntryPerTeam getProjectsByTeams →
  DashboardWithProjects.render getProjectsByTeams isSuperuser props ≠ TypeError
  ∧ Forall (λ s, ∃ team, ts_team s = Some team
                         ∧ team ∈ DashboardWithProjects.teams props
                         ∧ t_slug team = ts_key s)
      (mountedSections (DashboardWithProjects.render getProjectsByTeams isSuperuser props)).
Proof.
  intros Hone. unfold DashboardWithProjects.render.
  destruct (DashboardWithProjects.loadingProjects props); [by split|].
  destruct (DashboardWithProjects.showEmptyMessage _ _ _); [by split|].
  cbv zeta.
  assert (∀ slug, slug ∈ DashboardWithProjects.teamSlugs getProjectsByTeams isSuperuser props →
                  is_Some (DashboardWithProjects.teamsMap (DashboardWithProjects.teams props) !! slug))
    as Hfound.
  { intros slug Hin. apply projects_teamsMap_is_Some.
    apply projects_teamSlugs_elem_of in Hin. by apply Hone in Hin. }
  destruct (teamSections_is_Some (DashboardWithProjects.params_orgId props)
              (hasAccess (DashboardWithProjects.organization props) "team:admin")
              (DashboardWithProjects.teamsMap (DashboardWithProjects.teams props))
              (getProjectsByTeams (DashboardWithProjects.teams props)
                 (sortProjects (DashboardWithProjects.projects props)) isSuperuser)
              (DashboardWithProjects.teamSlugs getProjectsByTeams isSuperuser props))
    as [ss Hss]; [by apply Forall_forall|].
  rewrite Hss. cbn. split; [done|].
  apply teamSections_Some in Hss as [Hkeys Hall].
  rewrite Forall_forall in Hall. apply Forall_forall. intros s Hs.
  destruct (Hall s Hs) as (_ & _ & Hteam & _).
  destruct (Hfound (ts_key s)) as [team Hlook].
  { rewrite <- Hkeys. apply list_elem_of_fmap. by exists s. }
  exists team. split; [congruence|].
  apply fromEntries_lookup_Some, list_elem_of_fmap in Hlook as (team' & Heq & Hin').
  by simplify_eq.
Qed.

(** X7. When the grouping has an entry for exactly the teams of the list,
    the dashboard over fetched projects finds the team of every section: it
    never reads the slug of an undefined team, and each section it renders
    holds a team of the list with the section's slug. *)
Theorem projects_dashboard_finds_every_team
    (getProjectsByTeams : DashboardWithProjects.GetProjectsByTeams)
    (isSuperuser : bool) (props : DashboardWithProjects.Props) :
  DashboardWithProjects.oneEntryPerTeam getProjectsByTeams →
  DashboardWithProjects.render getProjectsByTeams isSuperuser props ≠ TypeError
  ∧ Forall (λ s, ∃ team, ts_team s = Some team
                         ∧ team ∈ DashboardWithProjects.teams props
                         ∧ t_slug team = ts_key s)
      (mountedSections (DashboardWithProjects.render getProjectsByTeams isSuperuser props)).
Proof. apply projects_dashboard_sections_found. Qed.

Lemma projects_dashboard_finds_every_team_witness :
  DashboardWithProjects.render Sample.groupAll false
    (Sample.projectsProps [Sample.team_a; Sample.team_b] [Sample.alpha]) ≠ TypeError
  ∧ Forall (λ s, ∃ team, ts_team s = Some team
                         ∧ team ∈ [Sample.team_a; Sample.team_b]
                         ∧ t_slug team = ts_key s)
      (mountedSections
         (DashboardWithProjects.render Sample.groupAll false
            (Sample.projectsProps [Sample.team_a; Sample.team_b] [Sample.alpha]))).
Proof.
  apply (projects_dashboard_finds_every_team Sample.groupAll false
           (Sample.projectsProps [Sample.team_a; Sample.team_b] [Sample.alpha])).
  exact groupAll_oneEntryPerTeam.
Defined.

(** X8. When the grouping has a key that is no team's slug, what the
    loaded dashboard over fetched projects does depends on the viewer: with
    [team:admin] the title link reads the slug of the undefined team and
    rendering throws; without it the content is rendered, with a section
    for that key that has no team. *)
Theorem projects_dashboard_unknown_key
    (getProjectsByTeams : DashboardWithProjects.GetProjectsByTeams)
    (isSuperuser : bool) (props : DashboardWithProjects.Props) (slug : string) :
  DashboardWithProjects.loadingProjects props = false →
  slug ∈ DashboardWithProjects.teamSlugs getProjectsByTeams isSuperuser props →
  slug ∉ t_slug <$> DashboardWithProjects.teams props →
  if hasAccess (DashboardWithProjects.organization props) "team:admin"
  then DashboardWithProjects.render getProjectsByTeams isSuperuser props = TypeError
  else ∃ s, s ∈ mountedSections
                  (DashboardWithProjects.render getProjectsByTeams isSuperuser props)
            ∧ ts_key s = slug ∧ ts_team s = None.
Proof.
  intros Hload Hin Hnot. unfold DashboardWithProjects.render.
  rewrite Hload, (showEmptyMessage_false_of_slug _ _ _ _ Hin). cbv zeta.
  assert (DashboardWithProjects.teamsMap (DashboardWithProjects.teams props) !! slug = None)
    as Hnone.
  { apply eq_None_not_Some. by rewrite projects_teamsMap_is_Some. }
  destruct (hasAccess _ _) eqn:Hadm.
  - assert (teamSections (DashboardWithProjects.params_orgId props) true
              (DashboardWithProjects.teamsMap (DashboardWithProjects.teams props))
              (getProjectsByTeams (DashboardWithProjects.teams props)
                 (sortProjects (DashboardWithProjects.projects props)) isSuperuser)
              (DashboardWithProjects.teamSlugs getProjectsByTeams isSuperuser props) = None)
      as ->; [|done].
    unfold teamSections. apply mapM_None_2, Exists_exists.
    apply list_elem_of_lookup in Hin as [i Hi].
    exists (i, slug). split.
    + apply list_elem_of_lookup. exists i. by rewrite list_lookup_imap, Hi.
    + cbn. unfold teamSection. by rewrite Hnone.
  - destruct (teamSections _ false _ _ _) as [ss|] eqn:Hss.
    + cbn. destruct (sections_lookup_key _ _ _ _ _ _ _ Hss Hin) as (s & Hs & Hk & _ & Ht & _).
      exists s. repeat split; [done..|congruence].
    + exfalso. unfold teamSections in Hss.
      apply mapM_None_1, Exists_exists in Hss as ([i sl] & _ & Hf).
      cbn in Hf. unfold teamSection in Hf.
      by destruct (DashboardWithProjects.teamsMap _ !! sl).
Qed.

Lemma projects_dashboard_unknown_key_admin_witness :
  DashboardWithProjects.render Sample.groupGhost false
    (Sample.projectsPropsOf Sample.org [Sample.team_a] [Sample.zulu_a]) = TypeError.
Proof.
  apply (projects_dashboard_unknown_key Sample.groupGhost false
           (Sample.projectsPropsOf Sample.org [Sample.team_a] [Sample.zulu_a]) "ghost").
  - reflexivity.
  - vm_compute. by left.
  - cbn. intros Hin. apply list_elem_of_singleton in Hin. discriminate Hin.
Defined.

(** The same grouping for a viewer without [team:admin]. *)
Lemma projects_dashboard_unknown_key_viewer :
  (λ s, (ts_key s, ts_team s))
    <$> mountedSections
          (DashboardWithProjects.render Sample.groupGhost false
             (Sample.projectsPropsOf Sample.viewerOrg [Sample.team_a] [Sample.zulu_a]))
  = [("ghost", None)].
Proof. by vm_compute. Qed.

(** X9. A user whose teams have no project yet: the loaded dashboard over
    fetched projects, given a grouping with an entry per team, renders the
    content without the header and without the resources panel, one section
    per distinct team slug; it does not render the empty state. *)
Theorem projects_dashboard_teams_without_projects
    (getProjectsByTeams : DashboardWithProjects.GetProjectsByTeams)
    (isSuperuser : bool) (props : DashboardWithProjects.Props) :
  DashboardWithProjects.oneEntryPerTeam getProjectsByTeams →
  DashboardWithProjects.loadingProjects props = false →
  DashboardWithProjects.teams props ≠ [] →
  DashboardWithProjects.projects props = [] →
  ∃ sections,
    DashboardWithProjects.render getProjectsByTeams isSuperuser props
    = Content false sections false
    ∧ ts_key <$> sections ≡ₚ remove_dups (t_slug <$> DashboardWithProjects.teams props).
Proof.
  intros Hone Hload Hteams Hprojects.
  destruct (DashboardWithProjects.teams props) as [|team teams] eqn:Heq; [done|].
  assert (t_slug team ∈ DashboardWithProjects.teamSlugs getProjectsByTeams isSuperuser props)
    as Hin.
  { apply projects_teamSlugs_elem_of, Hone. rewrite Heq, fmap_cons. by left. }
  pose proof (projects_dashboard_sections_found _ isSuperuser props Hone) as [Hok _].
  unfold DashboardWithProjects.render in *.
  rewrite Hload, (showEmptyMessage_false_of_slug _ _ _ _ Hin) in *. cbv zeta in *.
  destruct (teamSections _ _ _ _ _) as [ss|] eqn:Hss; [|done].
  exists ss. rewrite Hprojects. split; [done|].
  apply teamSections_Some in Hss as [-> _].
  apply NoDup_Permutation; [apply sort_keys_NoDup | apply NoDup_remove_dups |].
  intros slug. rewrite elem_of_remove_dups, projects_teamSlugs_elem_of, (Hone _ _ _ slug).
  by rewrite Heq.
Qed.

Lemma projects_dashboard_teams_without_projects_witness :
  ∃ sections,
    DashboardWithProjects.render Sample.groupAll false
      (Sample.projectsProps [Sample.team_a; Sample.team_b] [])
    = Content false sections false
    ∧ ts_key <$> sections ≡ₚ remove_dups (t_slug <$> [Sample.team_a; Sample.team_b]).
Proof.
  apply (projects_dashboard_teams_without_projects Sample.groupAll false
           (Sample.projectsProps [Sample.team_a; Sample.team_b] []));
    [exact groupAll_oneEntryPerTeam | reflexivity | discriminate | reflexivity].
Defined.

(** * Further properties of the wrapper with the loading flag *)

Lemma slotsAfter_length results done : length (Join.slotsAfter results done) = length results.
Proof. apply length_imap. Qed.

Lemma slotsAfter_lookup results done i :
  Join.slotsAfter results done !! i
  = (λ data, if bool_decide (i ∈ done) then Some (Fulfilled data) else None) <$> results !! i.
Proof. unfold Join.slotsAfter. by rewrite list_lookup_imap. Qed.

Lemma slotsAfter_insert results done i data :
  results !! i = Some data →
  <[i := Some (Fulfilled data)]> (Join.slotsAfter results done)
  = Join.slotsAfter results ({[i]} ∪ done).
Proof.
  intros Hi. apply list_eq. intros j. rewrite slotsAfter_lookup.
  destruct (decide (i = j)) as [<-|Hne].
  - rewrite list_lookup_insert_eq
      by (rewrite slotsAfter_length; by eapply lookup_lt_Some).
    rewrite Hi. cbn. rewrite bool_decide_eq_true_2; [done|].
    by apply elem_of_union_l, elem_of_singleton.
  - rewrite list_lookup_insert_ne by done. rewrite slotsAfter_lookup.
    destruct (results !! j); [|done]. cbn.
    rewrite (bool_decide_ext (j ∈ done) (j ∈ {[i]} ∪ done)); [done|].
    rewrite elem_of_union, elem_of_singleton. intuition congruence.
Qed.

Lemma slotsAfter_out_of_range results done i :
  results !! i = None →
  Join.slotsAfter results ({[i]} ∪ done) = Join.slotsAfter results done.
Proof.
  intros Hi. apply list_eq. intros j. rewrite !slotsAfter_lookup.
  destruct (results !! j) eqn:Hj; [|done]. cbn.
  rewrite (bool_decide_ext (j ∈ {[i]} ∪ done) (j ∈ done)); [done|].
  assert (i ≠ j) by congruence.
  rewrite elem_of_union, elem_of_singleton. intuition congruence.
Qed.

Lemma allFulfilled_slotsAfter results done rs :
  allFulfilled (Join.slotsAfter results done) = Some rs → rs = results.
Proof.
  unfold allFulfilled. rewrite mapM_Some. intros Hall.
  apply list_eq. intros i.
  destruct (results !! i) as [data|] eqn:Hi.
  - assert (Join.slotsAfter results done !! i
            = Some (if bool_decide (i ∈ done) then Some (Fulfilled data) else None)) as Hs
      by (by rewrite slotsAfter_lookup, Hi).
    destruct (Forall2_lookup_l _ _ _ _ _ Hall Hs) as (r & Hr & Hf).
    rewrite Hr. destruct (bool_decide _); by simplify_eq.
  - apply lookup_ge_None. apply lookup_ge_None in Hi.
    apply Forall2_length in Hall. rewrite slotsAfter_length in Hall. lia.
Qed.

Lemma allFulfilled_slotsAfter_all results done :
  (∀ i, i < length results → i ∈ done) →
  allFulfilled (Join.slotsAfter results done) = Some results.
Proof.
  intros Hall. unfold allFulfilled. apply mapM_Some, Forall2_same_length_lookup.
  split; [apply slotsAfter_length|].
  intros i slot data Hslot Hdata. rewrite slotsAfter_lookup, Hdata in Hslot.
  cbn in Hslot. rewrite bool_decide_eq_true_2 in Hslot; [by simplify_eq|].
  apply Hall. by eapply lookup_lt_Some.
Qed.

Lemma slotsAfter_empty {A} (results : list (list Project)) (xs : list A) :
  length xs = length results →
  map (λ _, None) xs = Join.slotsAfter results ∅.
Proof.
  intros Hlen. apply list_eq. intros i.
  rewrite slotsAfter_lookup. change (map ?f xs) with (f <$> xs).
  rewrite list_lookup_fmap.
  destruct (xs !! i) eqn:Hx, (results !! i) eqn:Hr; cbn; try done.
  - apply lookup_lt_Some in Hx. apply lookup_ge_None in Hr. lia.
  - apply lookup_lt_Some in Hr. apply lookup_ge_None in Hx. lia.
Qed.

Lemma allFulfilled_slotsAfter_empty results :
  results ≠ [] → allFulfilled (Join.slotsAfter results ∅) = None.
Proof.
  intros Hne. destruct results as [|data results]; [done|]. by cbn.
Qed.

(** Fulfilling requests of join [k] in any order: the join collects the
    results, the other joins and the requests sent stay as they are, and
    the state is the loaded one as soon as the join is complete. *)
Lemma run_fulfilAll k results order : ∀ done w,
  joins w !! k = Some (Join.slotsAfter results done) →
  (is_Some (allFulfilled (Join.slotsAfter results done)) → state w = Join.loaded results) →
  let w' := run w (Join.fulfilAll k results order) in
  joins w' !! k = Some (Join.slotsAfter results (list_to_set order ∪ done))
  ∧ (∀ j, j ≠ k → joins w' !! j = joins w !! j)
  ∧ network w' = network w
  ∧ (is_Some (allFulfilled (Join.slotsAfter results (list_to_set order ∪ done))) →
       state w' = Join.loaded results).
Proof.
  induction order as [|i order IH]; intros done w Hk Hstate; cbv zeta.
  - cbn. rewrite (left_id_L ∅ (∪)). done.
  - cbn [Join.fulfilAll fmap list_fmap run fold_left step].
    assert (list_to_set (i :: order) ∪ done = list_to_set order ∪ ({[i]} ∪ done) :> gset nat)
      as ->.
    { apply set_eq. intros x. rewrite list_to_set_cons, !elem_of_union. tauto. }
    fold (Join.fulfilAll k results order).
    set (w1 := settle k i (Fulfilled (default [] (results !! i))) w).
    assert (joins w1 !! k = Some (Join.slotsAfter results ({[i]} ∪ done))
            ∧ (∀ j, j ≠ k → joins w1 !! j = joins w !! j)
            ∧ network w1 = network w
            ∧ (is_Some (allFulfilled (Join.slotsAfter results ({[i]} ∪ done))) →
                 state w1 = Join.loaded results)) as (Hk1 & Hother1 & Hnet1 & Hstate1).
    { subst w1. unfold settle. rewrite Hk, slotsAfter_lookup.
      destruct (results !! i) as [data|] eqn:Hi; cbn.
      - destruct (bool_decide (i ∈ done)) eqn:Hdone.
        + apply bool_decide_eq_true in Hdone.
          assert ({[i]} ∪ done = done) as ->; [|done].
          apply set_eq. intros x. rewrite elem_of_union, elem_of_singleton.
          split; [intros [->|?]; done | by right].
        + cbn [joins network state]. rewrite (slotsAfter_insert _ _ _ _ Hi).
          repeat split.
          * apply list_lookup_insert_eq. by eapply lookup_lt_Some.
          * intros j Hj. by rewrite list_lookup_insert_ne.
          * intros [rs Hrs]. rewrite Hrs.
            by apply allFulfilled_slotsAfter in Hrs as ->.
      - rewrite (slotsAfter_out_of_range _ _ _ Hi). done. }
    destruct (IH ({[i]} ∪ done) w1 Hk1 Hstate1) as (Hk' & Hother' & Hnet' & Hstate').
    cbv zeta in Hk', Hother', Hnet', Hstate'.
    split; [exact Hk'|]. split; [|split; [|exact Hstate']].
    + intros j Hj. etrans; [by apply Hother' | by apply Hother1].
    + etrans; [exact Hnet' | exact Hnet1].
Qed.

Lemma mount_loaded_teams props results :
  loadingTeams props = false →
  length results = length (teams props) →
  results ≠ [] →
  componentDidMount props initial
  = {| state := initialState;
       network := getTeamsProjectEndpoints props;
       joins := [Join.slotsAfter results ∅] |}.
Proof.
  intros Hload Hlen Hne. unfold componentDidMount, fetchProjects. rewrite Hload. cbn.
  unfold getTeamsProjectPromises.
  assert (length (getTeamsProjectEndpoints props) = length results) as Hlen'.
  { unfold getTeamsProjectEndpoints. rewrite length_map. done. }
  rewrite length_map, Hlen'.
  destruct results as [|data results]; [done|]. cbn [length Nat.ltb Nat.leb].
  unfold initialState. f_equal. f_equal.
  by apply slotsAfter_empty.
Qed.

(** X10. The wrapper mounts with a loaded, non-empty team list and every
    request fulfils, in whatever order and however often a response is
    reported: the wrapper ends loaded, and its projects are the responses
    concatenated in the order of the teams, not in the order of arrival. *)
Theorem fulfilled_fan_out_loads_in_team_order
    (props : Props) (results : list (list Project)) (order : list nat) :
  loadingTeams props = false →
  teams props ≠ [] →
  length results = length (teams props) →
  (∀ i, i < length results → i ∈ order) →
  let w := run initial (Mount props :: Join.fulfilAll 0 results order) in
  state w = {| projects := concat results; loadingProjects := false |}
  ∧ network w = getTeamsProjectEndpoints props
  ∧ allFulfilled <$> joins w = [Some results].
Proof.
  intros Hload Hteams Hlen Hall. cbv zeta.
  assert (results ≠ []) as Hne.
  { intros ->. destruct (teams props); done. }
  cbn [run fold_left step]. rewrite (mount_loaded_teams props results) by done.
  set (w0 := {| state := initialState; network := getTeamsProjectEndpoints props;
                joins := [Join.slotsAfter results ∅] |}).
  fold (run w0 (Join.fulfilAll 0 results order)).
  destruct (run_fulfilAll 0 results order ∅ w0) as (Hk & Hother & Hnet & Hstate);
    [reflexivity | |].
  { rewrite allFulfilled_slotsAfter_empty by done. by intros [? ?]. }
  cbv zeta in *. cbn [joins network] in *.
  assert (allFulfilled (Join.slotsAfter results (list_to_set order ∪ ∅)) = Some results)
    as Hfull.
  { apply allFulfilled_slotsAfter_all. intros i Hi.
    by apply elem_of_union_l, elem_of_list_to_set, Hall. }
  split; [|split].
  - apply Hstate. by rewrite Hfull.
  - done.
  - match goal with |- allFulfilled <$> joins ?w = _ => set (w' := w) in * end.
    destruct (joins w') as [|slots [|slots' rest]] eqn:Hjoins.
    + done.
    + cbn in Hk. simplify_eq. cbn. by rewrite Hfull.
    + specialize (Hother 1). cbn in Hother. by specialize (Hother ltac:(done)).
Qed.

Lemma fulfilled_fan_out_witness :
  let w := run initial
             (Mount (Sample.wrapperProps [Sample.team_a; Sample.team_b] 0 false)
              :: Join.fulfilAll 0 [[Sample.zulu_a]; [Sample.alpha; Sample.zulu_b]] [1; 0; 1]) in
  state w = {| projects := concat [[Sample.zulu_a]; [Sample.alpha; Sample.zulu_b]];
               loadingProjects := false |}
  ∧ network w
    = getTeamsProjectEndpoints (Sample.wrapperProps [Sample.team_a; Sample.team_b] 0 false)
  ∧ allFulfilled <$> joins w = [Some [[Sample.zulu_a]; [Sample.alpha; Sample.zulu_b]]].
Proof.
  apply (fulfilled_fan_out_loads_in_team_order
           (Sample.wrapperProps [Sample.team_a; Sample.team_b] 0 false)
           [[Sample.zulu_a]; [Sample.alpha; Sample.zulu_b]] [1; 0; 1]);
    [reflexivity | discriminate | reflexivity |].
  intros i Hi. cbn in Hi. rewrite !elem_of_cons. destruct i as [|[|i]]; [auto | auto | lia].
Defined.

Lemma run_app w es1 es2 : run w (es1 ++ es2) = run (run w es1) es2.
Proof. apply fold_left_app. Qed.

Lemma update_changed_loaded_teams prevProps props results w :
  loadingTeams props = false →
  teamValue <$> teams prevProps ≠ teamValue <$> teams props →
  length results = length (teams props) →
  results ≠ [] →
  componentDidUpdate prevProps props w
  = {| state := {| projects := projects (state w); loadingProjects := true |};
       network := network w ++ getTeamsProjectEndpoints props;
       joins := joins w ++ [Join.slotsAfter results ∅] |}.
Proof.
  intros Hload Hdiff Hlen Hne. unfold componentDidUpdate. rewrite Hload.
  destruct (Lodash.isEqual _ _) eqn:Heq; [by apply isEqual_spec in Heq|].
  cbn. unfold fetchProjects, getTeamsProjectPromises.
  assert (length (getTeamsProjectEndpoints props) = length results) as Hlen'.
  { unfold getTeamsProjectEndpoints. rewrite length_map. done. }
  rewrite length_map, Hlen'.
  destruct results as [|data results]; [done|]. cbn [length Nat.ltb Nat.leb].
  f_equal. f_equal. f_equal. by apply slotsAfter_empty.
Qed.

(** X11. A fetch for a changed team list does not retire the fetch before
    it. When the requests of the later fetch have all fulfilled and the
    requests of the earlier fetch fulfil after them, the wrapper ends with
    the projects of the earlier, superseded team list. *)
Theorem superseded_fetch_overwrites_later_one
    (props props' : Props) (results results' : list (list Project))
    (order order' : list nat) :
  loadingTeams props = false →
  loadingTeams props' = false →
  teams props ≠ [] →
  teams props' ≠ [] →
  teamValue <$> teams props ≠ teamValue <$> teams props' →
  length results = length (teams props) →
  length results' = length (teams props') →
  (∀ i, i < length results → i ∈ order) →
  (∀ i, i < length results' → i ∈ order') →
  let later := run initial ([Mount props; Update props props']
                            ++ Join.fulfilAll 1 results' order') in
  let final := run later (Join.fulfilAll 0 results order) in
  state later = {| projects := concat results'; loadingProjects := false |}
  ∧ state final = {| projects := concat results; loadingProjects := false |}
  ∧ network final = getTeamsProjectEndpoints props ++ getTeamsProjectEndpoints props'.
Proof.
  intros Hload Hload' Hteams Hteams' Hdiff Hlen Hlen' Hall Hall'. cbv zeta.
  assert (results ≠ []) as Hne by (intros ->; destruct (teams props); done).
  assert (results' ≠ []) as Hne' by (intros ->; destruct (teams props'); done).
  rewrite run_app. cbn [run fold_left step].
  rewrite (mount_loaded_teams props results) by done.
  rewrite (update_changed_loaded_teams props props' results') by done.
  cbn [state network joins projects app].
  set (w2 := {| state := {| projects := []; loadingProjects := true |};
                network := getTeamsProjectEndpoints props ++ getTeamsProjectEndpoints props';
                joins := [Join.slotsAfter results ∅; Join.slotsAfter results' ∅] |}).
  fold (run w2 (Join.fulfilAll 1 results' order')).
  destruct (run_fulfilAll 1 results' order' ∅ w2) as (Hk1 & Hother1 & Hnet1 & Hstate1);
    [reflexivity | |].
  { rewrite allFulfilled_slotsAfter_empty by done. by intros [? ?]. }
  cbv zeta in Hk1, Hother1, Hnet1, Hstate1.
  set (w3 := run w2 (Join.fulfilAll 1 results' order')) in *.
  fold (run w3 (Join.fulfilAll 0 results order)).
  destruct (run_fulfilAll 0 results order ∅ w3) as (Hk0 & Hother0 & Hnet0 & Hstate0).
  { by rewrite (Hother1 0). }
  { rewrite allFulfilled_slotsAfter_empty by done. by intros [? ?]. }
  cbv zeta in Hk0, Hother0, Hnet0, Hstate0.
  split; [|split].
  - apply Hstate1. rewrite allFulfilled_slotsAfter_all; [done|].
    intros i Hi. by apply elem_of_union_l, elem_of_list_to_set, Hall'.
  - apply Hstate0. rewrite allFulfilled_slotsAfter_all; [done|].
    intros i Hi. by apply elem_of_union_l, elem_of_list_to_set, Hall.
  - etrans; [exact Hnet0 | exact Hnet1].
Qed.

Lemma superseded_fetch_witness :
  let props := Sample.wrapperProps [Sample.team_a] 0 false in
  let props' := Sample.wrapperProps [Sample.team_b] 1 false in
  let later := run initial ([Mount props; Update props props']
                            ++ Join.fulfilAll 1 [[Sample.alpha; Sample.zulu_b]] [0]) in
  let final := run later (Join.fulfilAll 0 [[Sample.zulu_a]] [0]) in
  state later = {| projects := concat [[Sample.alpha; Sample.zulu_b]]; loadingProjects := false |}
  ∧ state final = {| projects := concat [[Sample.zulu_a]]; loadingProjects := false |}
  ∧ network final = getTeamsProjectEndpoints props ++ getTeamsProjectEndpoints props'.
Proof.
  apply (superseded_fetch_overwrites_later_one
           (Sample.wrapperProps [Sample.team_a] 0 false)
           (Sample.wrapperProps [Sample.team_b] 1 false)
           [[Sample.zulu_a]] [[Sample.alpha; Sample.zulu_b]] [0] [0]);
    try reflexivity; try discriminate.
  - intros i Hi. cbn in Hi. destruct i; [by left | lia].
  - intros i Hi. cbn in Hi. destruct i; [by left | lia].
Defined.

(** X12. The wrapper fetches on a change of the team list by value, not
    on [loadingTeams] dropping. Over mounts while the teams load, updates
    while they load, updates that carry a team list equal by value to the
    previous one, and requests ending, it never leaves its initial state:
    no request is sent and [loadingProjects] stays true, even when a later
    update hands it a loaded, non-empty team list it had already seen. *)
Theorem quiet_events_never_fetch (es : list Event) :
  Forall Join.quiet es → run initial es = initial.
Proof.
  induction es as [|e es IH] using rev_ind; [done|].
  intros [Hes He%Forall_inv]%Forall_app. rewrite run_app, IH by done.
  cbn. destruct e as [props|prevProps props|k i o]; cbn in *.
  - unfold componentDidMount. by rewrite He.
  - unfold componentDidUpdate. destruct He as [->|Hsame]; [done|].
    apply isEqual_spec in Hsame. rewrite Hsame. by rewrite andb_false_r.
  - done.
Qed.

Lemma quiet_events_witness :
  run initial
    [Mount (Sample.wrapperProps [Sample.team_a; Sample.team_b] 0 true);
     Update (Sample.wrapperProps [Sample.team_a; Sample.team_b] 0 true)
            (Sample.wrapperProps [Sample.team_a; Sample.team_b] 1 false)]
  = initial.
Proof.
  apply (quiet_events_never_fetch
           [Mount (Sample.wrapperProps [Sample.team_a; Sample.team_b] 0 true);
            Update (Sample.wrapperProps [Sample.team_a; Sample.team_b] 0 true)
                   (Sample.wrapperProps [Sample.team_a; Sample.team_b] 1 false)]).
  apply Forall_cons_2; [reflexivity|].
  apply Forall_cons_2; [right; reflexivity | apply Forall_nil_2].
Defined.

(** * The wrapper without the flag under withUsersTeams *)

(** X13. The wrapper without the flag, fed by withUsersTeams: at mount the
    team list is still the empty initial one, so mounting sends nothing and
    changes nothing; the update that brings the fetched teams arrives with
    a new props object and sends one request per fetched team, in their
    order, joined in one [Promise.all] unless there is no team. *)
Theorem plain_wrapper_fetches_when_teams_arrive
    (organization : Organization) (data : list Team) (instance instance' : nat) :
  instance ≠ instance' →
  let teamsAfter es :=
    WithUsersTeams.teams
      (WithUsersTeams.state (WithUsersTeams.run WithUsersTeams.initial es)) in
  let props :=
    {| WithTeamProjectsPlain.props_instance := instance;
       WithTeamProjectsPlain.organization := organization;
       WithTeamProjectsPlain.teams := teamsAfter [WithUsersTeams.Mount organization] |} in
  let props' :=
    {| WithTeamProjectsPlain.props_instance := instance';
       WithTeamProjectsPlain.organization := organization;
       WithTeamProjectsPlain.teams :=
         teamsAfter [WithUsersTeams.Mount organization; WithUsersTeams.Resolve data] |} in
  let mounted := WithTeamProjectsPlain.componentDidMount props WithTeamProjectsPlain.initial in
  let updated := WithTeamProjectsPlain.componentDidUpdate props props' mounted in
  mounted = WithTeamProjectsPlain.initial
  ∧ WithTeamProjectsPlain.network updated
    = (λ team, teamProjectsEndpoint (org_slug organization) (t_slug team)) <$> data
  ∧ WithTeamProjectsPlain.joins updated
    = match data with [] => [] | _ => [(λ _, None) <$> data] end
  ∧ WithTeamProjectsPlain.state updated = WithTeamProjectsPlain.state mounted.
Proof.
  intros Hne. cbv zeta. cbn.
  unfold WithTeamProjectsPlain.componentDidUpdate. cbn.
  apply Nat.eqb_neq in Hne as ->. cbn.
  unfold WithTeamProjectsPlain.fetchProjects, WithTeamProjectsPlain.getTeamsProjectPromises,
    WithTeamProjectsPlain.getTeamsProjectEndpoints. cbn.
  split; [done|]. split; [done|]. split; [|done].
  destruct data as [|team data]; [done|]. cbn. f_equal. f_equal. f_equal.
  change (map ?f ?l) with (f <$> l). by rewrite <- !list_fmap_compose.
Qed.

Lemma plain_wrapper_fetches_witness :
  let teamsAfter es :=
    WithUsersTeams.teams
      (WithUsersTeams.state (WithUsersTeams.run WithUsersTeams.initial es)) in
  let props :=
    {| WithTeamProjectsPlain.props_instance := 0;
       WithTeamProjectsPlain.organization := Sample.org;
       WithTeamProjectsPlain.teams := teamsAfter [WithUsersTeams.Mount Sample.org] |} in
  let props' :=
    {| WithTeamProjectsPlain.props_instance := 1;
       WithTeamProjectsPlain.organization := Sample.org;
       WithTeamProjectsPlain.teams :=
         teamsAfter [WithUsersTeams.Mount Sample.org;
                     WithUsersTeams.Resolve [Sample.team_a; Sample.team_b]] |} in
  let mounted := WithTeamProjectsPlain.componentDidMount props WithTeamProjectsPlain.initial in
  let updated := WithTeamProjectsPlain.componentDidUpdate props props' mounted in
  mounted = WithTeamProjectsPlain.initial
  ∧ WithTeamProjectsPlain.network updated
    = (λ team, teamProjectsEndpoint (org_slug Sample.org) (t_slug team))
        <$> [Sample.team_a; Sample.team_b]
  ∧ WithTeamProjectsPlain.joins updated
    = match [Sample.team_a; Sample.team_b] with
      | [] => []
      | _ => [(λ _, None) <$> [Sample.team_a; Sample.team_b]]
      end
  ∧ WithTeamProjectsPlain.state updated = WithTeamProjectsPlain.state mounted.
Proof.
  apply (plain_wrapper_fetches_when_teams_arrive Sample.org [Sample.team_a; Sample.team_b] 0 1).
  discriminate.
Defined.

(** * Further properties of withUsersTeams and of the team section *)

(** X14. However withUsersTeams is driven, it sends one request per mount,
    to the teams endpoint of the organization it was mounted with, and
    nothing else; its teams are the empty initial list or the data of a
    response, and a rejection never changes them. *)
Theorem usersTeams_one_request_per_mount (es : list WithUsersTeams.Event) :
  let w := WithUsersTeams.run WithUsersTeams.initial es in
  WithUsersTeams.network w
  = omap (λ e, match e with
               | WithUsersTeams.Mount organization =>
                   Some (WithUsersTeams.getUsersTeamsEndpoint organization)
               | _ => None
               end) es
  ∧ (WithUsersTeams.teams (WithUsersTeams.state w) = []
     ∨ WithUsersTeams.Resolve (WithUsersTeams.teams (WithUsersTeams.state w)) ∈ es)
  ∧ WithUsersTeams.inFlight w ≤ length (WithUsersTeams.network w).
Proof.
  cbv zeta. induction es as [|e es (IHn & IHt & IHf)] using rev_ind.
  - cbn. split; [done|]. split; [by left | lia].
  - unfold WithUsersTeams.run in *. rewrite fold_left_app, omap_app. cbn [fold_left].
    set (w := fold_left WithUsersTeams.step es WithUsersTeams.initial) in *.
    unfold WithUsersTeams.step.
    assert (Hkeep : WithUsersTeams.teams (WithUsersTeams.state w) = []
                    ∨ WithUsersTeams.Resolve (WithUsersTeams.teams (WithUsersTeams.state w))
                      ∈ es ++ [e]).
    { destruct IHt as [?|?]; [by left | right]. apply elem_of_app. by left. }
    destruct e as [organization|data|err]; cbn.
    + split; [by rewrite IHn|]. split; [done|]. rewrite length_app. cbn. lia.
    + destruct (WithUsersTeams.inFlight w) eqn:Hin; cbn; rewrite app_nil_r.
      * split; [done|]. split; [done|]. lia.
      * split; [done|]. split; [|lia]. right. apply elem_of_app. right. by left.
    + destruct (WithUsersTeams.inFlight w) eqn:Hin; cbn; rewrite app_nil_r.
      * split; [done|]. split; [done|]. lia.
      * split; [done|]. split; [done|]. lia.
Qed.


Lemma dashboard_section_has_team props s :
  s ∈ mountedSections (Dashboard.render props) →
  ts_orgId s = Dashboard.params_orgId props
  ∧ ts_projects s = Dashboard.projectsByTeam (Dashboard.teams props) !! ts_key s
  ∧ ∃ team, ts_team s = Some team ∧ t_slug team = ts_key s.
Proof.
  unfold Dashboard.render.
  destruct (Dashboard.loadingTeams props); [by intros ?%elem_of_nil|].
  destruct (JS.defined _); [by intros ?%elem_of_nil|].
  destruct (Dashboard.showEmptyMessage _); [by intros ?%elem_of_nil|].
  destruct (teamSections _ _ _ _ _) as [ss|] eqn:Hss; [|by intros ?%elem_of_nil].
  cbn. intros Hs. apply teamSections_Some in Hss as [Hkeys Hall].
  rewrite Forall_forall in Hall. destruct (Hall s Hs) as (Horg & _ & Hteam & Hprojects).
  split; [done|]. split; [done|].
  assert (ts_key s ∈ Dashboard.teamSlugs (Dashboard.teams props)) as Hin.
  { rewrite <- Hkeys. apply list_elem_of_fmap. by exists s. }
  apply dashboard_teamSlugs_elem_of, teamsMap_is_Some in Hin as [team Hlook].
  exists team. split; [congruence|].
  apply fromEntries_lookup_Some, list_elem_of_fmap in Hlook as (team' & Heq & _).
  by simplify_eq.
Qed.

(** * The lazy dashboard *)

Lemma teams_run_app w es1 es2 :
  Teams.run w (es1 ++ es2) = Teams.run (Teams.run w es1) es2.
Proof. apply fold_left_app. Qed.

(** What holds of [Teams] in every state it reaches. *)
Lemma teams_reachable (es : list Teams.Event) :
  let st := Teams.state (Teams.run Teams.initial es) in
  (Teams.teams st = None ∧ Teams.initiallyLoaded st = false
   ∨ ∃ data, Teams.Resolve data ∈ es ∧ Teams.teams st = Some data)
  ∧ Teams.hasMore st = None.
Proof.
  cbv zeta. induction es as [|e es (IHt & IHm)] using rev_ind; [by split; [left|]|].
  rewrite teams_run_app. cbn. set (w := Teams.run Teams.initial es) in *.
  assert (Hkeep : Teams.teams (Teams.state w) = None
                  ∧ Teams.initiallyLoaded (Teams.state w) = false
                  ∨ ∃ data, Teams.Resolve data ∈ es ++ [e]
                            ∧ Teams.teams (Teams.state w) = Some data).
  { destruct IHt as [?|(data & ? & ?)]; [by left | right].
    exists data. split; [|done]. apply elem_of_app. by left. }
  unfold Teams.step. destruct e as [orgId|data|err]; cbn.
  - done.
  - destruct (Teams.inFlight w) as [|n]; cbn; [done|].
    split; [|done]. right. exists data. split; [|done].
    apply elem_of_app. right. by left.
  - destruct (Teams.inFlight w) as [|n]; by cbn.
Qed.

(** X17. In every state the lazy dashboard reaches, the function it hands
    to [Teams] never reads the length of a null team list; it renders
    nothing unless a response has delivered the teams it works on; and the
    header with the create-project button is never rendered. *)
Theorem lazy_dashboard_reachable_views
    (props : LazyDashboard.Props) (es : list Teams.Event) :
  let st := Teams.state (Teams.run Teams.initial es) in
  let v := LazyDashboard.render props st in
  LazyDashboard.header v = false
  ∧ LazyDashboard.children v ≠ LazyDashboard.LengthOfNull
  ∧ (LazyDashboard.children v = LazyDashboard.Nothing
     ∨ ∃ data, Teams.Resolve data ∈ es ∧ Teams.teams st = Some data).
Proof.
  cbv zeta. split; [done|].
  destruct (teams_reachable es) as [[[Hnone Hinit]|(data & Hin & Hdata)] _]; cbn.
  - unfold LazyDashboard.renderChildren. rewrite Hinit. cbn. split; [done | by left].
  - unfold LazyDashboard.renderChildren. rewrite Hdata.
    split; [|right; eauto].
    destruct (_ || _); [done|]. by destruct (_ && _).
Qed.

Lemma fmap_imap_const {A B C} (f : nat → A → B) (g : A → C) (h : B → C) (l : list A) :
  (∀ i x, h (f i x) = g x) → h <$> imap f l = g <$> l.
Proof.
  intros Hfg. revert f Hfg. induction l as [|x l IH]; intros f Hfg; [done|].
  cbn. rewrite Hfg. f_equal. apply IH. intros i y. apply Hfg.
Qed.

(** X18. The lazy dashboard after the response to its one request, which
    goes to the teams endpoint of the organization with [lite=1]: with no
    team it shows the empty state; otherwise it lays out one section per
    team of the response, in the order of the response, each with its team,
    the organization of the route parameters and an empty project list,
    and all but the last with a border. *)
Theorem lazy_dashboard_after_response (props : LazyDashboard.Props) (data : list Team) :
  let w := Teams.run Teams.initial [LazyDashboard.mount props; Teams.Resolve data] in
  Teams.network w
  = [("/organizations/" +:+ org_slug (LazyDashboard.organization props) +:+ "/teams/",
      [("lite", "1")])]
  ∧ ∃ sections,
      LazyDashboard.children (LazyDashboard.render props (Teams.state w))
      = match data with
        | [] => LazyDashboard.NoProjects
        | _ => LazyDashboard.Sections sections
        end
      ∧ ts_team <$> sections = Some <$> data
      ∧ ts_key <$> sections = t_slug <$> data
      ∧ ts_projects <$> sections = (λ _, Some []) <$> data
      ∧ ts_orgId <$> sections = (λ _, LazyDashboard.params_orgId props) <$> data
      ∧ ts_showBorder <$> sections
        = replicate (length data - 1) true ++ match data with [] => [] | _ => [false] end.
Proof.
  cbv zeta. split; [done|].
  exists (imap (LazyDashboard.section props (length data)) data).
  split; [by destruct data|].
  repeat split; try by apply fmap_imap_const.
  rewrite <- (imap_border data 0). rewrite fmap_imap. apply imap_ext.
  intros i team _. cbn. f_equal. apply eq_iff_eq_true. rewrite !Nat.eqb_eq. lia.
Qed.

(** X19. When the one request of the lazy dashboard is rejected, [Teams]
    prints the error and leaves [fetching] up: the dashboard renders
    nothing below its header place, and goes on rendering nothing whatever
    arrives afterwards, short of a new mount. *)
Theorem lazy_dashboard_blank_after_rejection
    (props : LazyDashboard.Props) (err : string) (es : list Teams.Event) :
  Forall (λ e, ∀ orgId, e ≠ Teams.Mount orgId) es →
  let w := Teams.run Teams.initial (LazyDashboard.mount props :: Teams.Reject err :: es) in
  Teams.state w
  = {| Teams.teams := None; Teams.initiallyLoaded := false;
       Teams.fetching := true; Teams.hasMore := None |}
  ∧ Teams.console w = [err]
  ∧ LazyDashboard.render props (Teams.state w)
    = {| LazyDashboard.header := false; LazyDashboard.children := LazyDashboard.Nothing |}.
Proof.
  intros Hes. cbv zeta. cbn [Teams.run fold_left].
  set (w1 := Teams.step (Teams.step Teams.initial (LazyDashboard.mount props))
               (Teams.Reject err)).
  assert (fold_left Teams.step es w1 = w1) as ->; [|done].
  induction Hes as [|e es He _ IH]; [done|].
  cbn [fold_left].
  assert (Teams.step w1 e = w1) as ->; [|done].
  destruct e as [orgId|data|err']; [by destruct (He orgId) | done | done].
Qed.

Lemma lazy_dashboard_blank_witness :
  let props := {| LazyDashboard.params_orgId := "acme";
                  LazyDashboard.organization := Sample.org |} in
  let w := Teams.run Teams.initial
             (LazyDashboard.mount props :: Teams.Reject "500"
              :: [Teams.Resolve [Sample.team_a]; Teams.Reject "502"]) in
  Teams.state w
  = {| Teams.teams := None; Teams.initiallyLoaded := false;
       Teams.fetching := true; Teams.hasMore := None |}
  ∧ Teams.console w = ["500"]
  ∧ LazyDashboard.render props (Teams.state w)
    = {| LazyDashboard.header := false; LazyDashboard.children := LazyDashboard.Nothing |}.
Proof.
  apply (lazy_dashboard_blank_after_rejection
           {| LazyDashboard.params_orgId := "acme"; LazyDashboard.organization := Sample.org |}
           "500" [Teams.Resolve [Sample.team_a]; Teams.Reject "502"]).
  apply Forall_cons_2; [discriminate|].
  apply Forall_cons_2; [discriminate | apply Forall_nil_2].
Defined.

(** * What the viewer's access decides *)

Lemma dashboard_section_titleLinked props s :
  s ∈ mountedSections (Dashboard.render props) →
  ts_titleLinked s = hasAccess (Dashboard.organization props) "team:admin".
Proof.
  unfold Dashboard.render.
  destruct (Dashboard.loadingTeams props); [by intros ?%elem_of_nil|].
  destruct (JS.defined _); [by intros ?%elem_of_nil|].
  destruct (Dashboard.showEmptyMessage _); [by intros ?%elem_of_nil|].
  destruct (teamSections _ _ _ _ _) as [ss|] eqn:Hss; [|by intros ?%elem_of_nil].
  cbn. intros Hs. apply teamSections_Some in Hss as [_ Hall].
  rewrite Forall_forall in Hall. by destruct (Hall s Hs) as (_ & ? & _).
Qed.

(** X20. For every section of the rendered dashboard, in whatever state
    the section is: the title links to the team settings exactly for a
    viewer with [team:admin]; the members of the section's own team, under
    the organization of the route parameters, are shown exactly for a
    viewer with [team:read]; and every project card is told whether the
    viewer has [project:read]. *)
Theorem section_affordances_follow_access
    (props : Dashboard.Props) (s : TeamSectionProps) (st : TeamSection.State) :
  s ∈ mountedSections (Dashboard.render props) →
  let scopes := access (Dashboard.organization props) in
  let v := TeamSectionView.render s scopes st in
  TeamSectionView.titleLinked v = bool_decide ("team:admin" ∈ scopes)
  ∧ TeamSectionView.members v
    = (if bool_decide ("team:read" ∈ scopes)
       then Some (ts_key s, Dashboard.params_orgId props)
       else None)
  ∧ Forall (λ card, TeamSectionView.card_hasProjectAccess card
                    = bool_decide ("project:read" ∈ scopes))
      (TeamSectionView.cards v).
Proof.
  intros Hs. cbv zeta.
  pose proof (dashboard_section_titleLinked props s Hs) as Htitle.
  apply dashboard_section_has_team in Hs as (Horg & _ & team & Hteam & Hslug).
  split; [done|]. split.
  - cbn. rewrite Hteam. cbn. by rewrite Horg, Hslug.
  - cbn. apply Forall_forall. intros card Hcard.
    change (map ?f ?l) with (f <$> l) in Hcard.
    apply list_elem_of_fmap in Hcard as (project & -> & _). done.
Qed.

Lemma section_affordances_witness :
  let props := Sample.dashboardProps [Sample.team_a] in
  let s := {| ts_key := "a"; ts_api := false; ts_orgId := "acme";
              ts_team := Some Sample.team_a;
              ts_showBorder := false; ts_titleLinked := true;
              ts_projects := Some [Sample.zulu_a] |} in
  let st := {| TeamSection.loading := false; TeamSection.projects := [Sample.zulu_a] |} in
  let scopes := access (Dashboard.organization props) in
  let v := TeamSectionView.render s scopes st in
  TeamSectionView.titleLinked v = bool_decide ("team:admin" ∈ scopes)
  ∧ TeamSectionView.members v
    = (if bool_decide ("team:read" ∈ scopes)
       then Some (ts_key s, Dashboard.params_orgId props)
       else None)
  ∧ Forall (λ card, TeamSectionView.card_hasProjectAccess card
                    = bool_decide ("project:read" ∈ scopes))
      (TeamSectionView.cards v).
Proof.
  apply (section_affordances_follow_access (Sample.dashboardProps [Sample.team_a])
           {| ts_key := "a"; ts_api := false; ts_orgId := "acme";
              ts_team := Some Sample.team_a;
              ts_showBorder := false; ts_titleLinked := true;
              ts_projects := Some [Sample.zulu_a] |}
           {| TeamSection.loading := false; TeamSection.projects := [Sample.zulu_a] |}).
  vm_compute. by left.
Defined.

(** * Sections without an api client *)

Lemma teamSections_no_api orgId adm tm pbt slugs ss :
  teamSections orgId adm tm pbt slugs = Some ss → Forall (λ s, ts_api s = false) ss.
Proof.
  unfold teamSections. generalize (length slugs) as len. generalize (imap pair slugs) as l.
  intros l len. rewrite mapM_Some.
  induction 1 as [|[index slug] s l' ss' Hs _ IH]; [constructor|].
  constructor; [|done]. unfold teamSection in Hs.
  destruct (tm !! slug), adm; by simplify_eq.
Qed.

Lemma dashboard_sections_no_api props :
  Forall (λ s, ts_api s = false) (mountedSections (Dashboard.render props)).
Proof.
  unfold Dashboard.render.
  destruct (Dashboard.loadingTeams props); [constructor|].
  destruct (JS.defined _); [constructor|].
  destruct (Dashboard.showEmptyMessage _); [constructor|].
  destruct (teamSections _ _ _ _ _) as [ss|] eqn:Hss; [|constructor].
  cbn. by eapply teamSections_no_api.
Qed.

Lemma projects_dashboard_sections_no_api g su props :
  Forall (λ s, ts_api s = false)
    (mountedSections (DashboardWithProjects.render g su props)).
Proof.
  unfold DashboardWithProjects.render.
  destruct (DashboardWithProjects.loadingProjects props); [constructor|].
  destruct (DashboardWithProjects.showEmptyMessage _ _ _); [constructor|].
  destruct (teamSections _ _ _ _ _) as [ss|] eqn:Hss; [|constructor].
  cbn. by eapply teamSections_no_api.
Qed.

Lemma mount_without_api s w :
  ts_api s = false →
  TeamSectionView.componentDidMount s w
  = {| TeamSection.state :=
         {| TeamSection.loading := true;
            TeamSection.projects := TeamSection.projects (TeamSection.state w) |};
       TeamSection.network := TeamSection.network w;
       TeamSection.console := TeamSection.console w ++ ["TypeError"];
       TeamSection.inFlight := TeamSection.inFlight w |}.
Proof.
  intros Hapi. unfold TeamSectionView.componentDidMount, TeamSectionView.fetchProps.
  by rewrite Hapi.
Qed.

Lemma sectionFetches_no_api ss :
  Forall (λ s, ts_api s = false) ss → TeamSectionView.sectionFetches ss = [].
Proof.
  unfold TeamSectionView.sectionFetches.
  induction 1 as [|s ss Hs _ IH]; [done|].
  cbn. rewrite IH, (mount_without_api _ _ Hs). done.
Qed.

Lemma bind_imap_singleton {A B C} (f : nat → A → B) (g : B → list C) (h : A → C)
    (l : list A) :
  (∀ i x, g (f i x) = [h x]) → imap f l ≫= g = h <$> l.
Proof.
  intros Hg. revert f Hg. induction l as [|x l IH]; intros f Hg; [done|].
  cbn. rewrite Hg. cbn. f_equal. apply IH. intros i y. apply Hg.
Qed.

(** X5. Which sections fetch. The sections of the two dashboards over
    loaded projects are created without an [api] client, so that mounting
    them sends no request at all. The sections of the lazy dashboard are
    handed its client: mounted, they send one request per team of the
    response, in the order of the response, each to the projects endpoint
    of its team under the organization of the route parameters. *)
Theorem sections_fetch_only_with_api
    (props : Dashboard.Props)
    (getProjectsByTeams : DashboardWithProjects.GetProjectsByTeams)
    (isSuperuser : bool) (props' : DashboardWithProjects.Props)
    (lazyProps : LazyDashboard.Props) (data : list Team) :
  TeamSectionView.sectionFetches (mountedSections (Dashboard.render props)) = []
  ∧ TeamSectionView.sectionFetches
      (mountedSections (DashboardWithProjects.render getProjectsByTeams isSuperuser props'))
    = []
  ∧ TeamSectionView.sectionFetches
      (lazySections
         (LazyDashboard.children
            (LazyDashboard.render lazyProps
               (Teams.state
                  (Teams.run Teams.initial
                     [LazyDashboard.mount lazyProps; Teams.Resolve data])))))
    = (λ team, teamProjectsEndpoint (LazyDashboard.params_orgId lazyProps) (t_slug team))
        <$> data.
Proof.
  split; [apply sectionFetches_no_api, dashboard_sections_no_api|].
  split; [apply sectionFetches_no_api, projects_dashboard_sections_no_api|].
  cbn. unfold LazyDashboard.renderChildren. cbn.
  destruct data as [|team data]; [done|].
  cbn [length Nat.eqb andb lazySections]. unfold TeamSectionView.sectionFetches.
  by apply bind_imap_singleton.
Qed.

(** X16. A section of the dashboard over embedded projects never shows a
    project card, whatever grouped projects the dashboard hands it. Created
    without [api], its [fetchData] throws inside its [try] before a request
    goes out; the error is printed, [loading] stays up, nothing is in
    flight, and no response or rejection that arrives later changes the
    section. *)
Theorem dashboard_section_never_shows_cards
    (props : Dashboard.Props) (s : TeamSectionProps) (es : list TeamSection.Event) :
  s ∈ mountedSections (Dashboard.render props) →
  forallb (λ e, negb (TeamSectionView.isMount e)) es = true →
  let w := TeamSectionView.componentDidMount s TeamSection.initial in
  ts_projects s = Dashboard.projectsByTeam (Dashboard.teams props) !! ts_key s
  ∧ w = {| TeamSection.state := {| TeamSection.loading := true;
                                   TeamSection.projects := [] |};
           TeamSection.network := [];
           TeamSection.console := ["TypeError"];
           TeamSection.inFlight := 0 |}
  ∧ TeamSection.run w es = w
  ∧ TeamSectionView.cards
      (TeamSectionView.render s (access (Dashboard.organization props))
         (TeamSection.state (TeamSection.run w es))) = [].
Proof.
  intros Hs Hes. cbv zeta.
  pose proof (dashboard_sections_no_api props) as Hapi.
  rewrite Forall_forall in Hapi. specialize (Hapi s Hs).
  apply dashboard_section_has_team in Hs as (_ & Hprojects & _).
  rewrite (mount_without_api _ _ Hapi). cbn [TeamSection.initial TeamSection.state
    TeamSection.projects TeamSection.network TeamSection.console TeamSection.inFlight app].
  set (w := {| TeamSection.state := _ |}).
  assert (TeamSection.run w es = w) as Hrun.
  { clear -Hes. induction es as [|e es IH]; [done|].
    cbn in Hes. apply andb_true_iff in Hes as [He Hes].
    cbn [TeamSection.run fold_left].
    assert (TeamSection.step w e = w) as ->; [|by apply IH].
    by destruct e. }
  split; [done|]. split; [done|]. split; [done|]. by rewrite Hrun.
Qed.

Lemma dashboard_section_never_shows_cards_witness :
  let props := Sample.dashboardProps [Sample.team_a] in
  let s := {| ts_key := "a"; ts_api := false; ts_orgId := "acme";
              ts_team := Some Sample.team_a;
              ts_showBorder := false; ts_titleLinked := true;
              ts_projects := Some [Sample.zulu_a] |} in
  let es := [TeamSection.Resolve [Sample.zulu_a]; TeamSection.Reject "500"] in
  let w := TeamSectionView.componentDidMount s TeamSection.initial in
  ts_projects s = Dashboard.projectsByTeam (Dashboard.teams props) !! ts_key s
  ∧ w = {| TeamSection.state := {| TeamSection.loading := true;
                                   TeamSection.projects := [] |};
           TeamSection.network := [];
           TeamSection.console := ["TypeError"];
           TeamSection.inFlight := 0 |}
  ∧ TeamSection.run w es = w
  ∧ TeamSectionView.cards
      (TeamSectionView.render s (access (Dashboard.organization props))
         (TeamSection.state (TeamSection.run w es))) = [].
Proof.
  apply (dashboard_section_never_shows_cards (Sample.dashboardProps [Sample.team_a])
           {| ts_key := "a"; ts_api := false; ts_orgId := "acme";
              ts_team := Some Sample.team_a;
              ts_showBorder := false; ts_titleLinked := true;
              ts_projects := Some [Sample.zulu_a] |}
           [TeamSection.Resolve [Sample.zulu_a]; TeamSection.Reject "500"]).
  - vm_compute. by left.
  - reflexivity.
Defined.

(** * The states of the dashboards, with what feeds them *)

Lemma empty_team_lists_never_load (es : list Event) :
  Forall (λ e, eventTeams e = []) es →
  loadingProjects (state (run initial es)) = true ∧ network (run initial es) = []
  ∧ joins (run initial es) = [].
Proof.
  induction es as [|e es IH] using rev_ind; [done|].
  intros [Hes He%Forall_inv]%Forall_app. rewrite run_app.
  destruct (IH Hes) as (Hload & Hnet & Hjoins). cbn.
  assert (Hfetch : ∀ props, teams props = [] →
            loadingProjects (state (fetchProjects props (run initial es))) = true
            ∧ network (fetchProjects props (run initial es)) = []
            ∧ joins (fetchProjects props (run initial es)) = []).
  { intros props Hteams.
    unfold fetchProjects, getTeamsProjectPromises, getTeamsProjectEndpoints.
    rewrite Hteams. cbn. by rewrite Hnet, Hjoins. }
  destruct e as [p|pp p|k i o]; cbn [step].
  - unfold componentDidMount. destruct (negb _); [by apply Hfetch | done].
  - unfold componentDidUpdate. destruct (_ && _); [by apply Hfetch | done].
  - unfold settle. by rewrite Hjoins, lookup_nil.
Qed.

(** C6, at the input where the code departs from it. With no team, once
    the teams are loaded without error, the dashboard over embedded
    projects renders the empty state and mounts no section. The dashboard
    over fetched projects stands inside the wrapper that fetches them: with
    an empty team list in every mount and update the wrapper sends no
    request and never lowers [loadingProjects], and what is rendered in
    every state reached is the loading indicator, not the empty state. *)
Theorem C6_no_teams_wrapped_dashboard_keeps_loading
    (props : Dashboard.Props)
    (getProjectsByTeams : DashboardWithProjects.GetProjectsByTeams)
    (isSuperuser : bool) (params_orgId : string)
    (wrapperProps : Props) (es : list Event) :
  Dashboard.loadingTeams props = false →
  Dashboard.error props = None →
  Dashboard.teams props = [] →
  teams wrapperProps = [] →
  Forall (λ e, eventTeams e = []) es →
  (Dashboard.render props = NoProjectMessage []
   ∧ mountedSections (Dashboard.render props) = [])
  ∧ (WrappedDashboard.render getProjectsByTeams isSuperuser params_orgId wrapperProps
       (state (run initial es)) = LoadingIndicator
     ∧ network (run initial es) = []).
Proof.
  intros Hload Herr Hteams Hwteams Hes. split.
  - unfold Dashboard.render. rewrite Hload, Herr, Hteams. by cbn.
  - destruct (empty_team_lists_never_load es Hes) as (Hloading & Hnet & _).
    split; [|done].
    unfold WrappedDashboard.render, DashboardWithProjects.render. cbn.
    by rewrite Hloading.
Qed.

Lemma C6_wrapped_witness :
  (Dashboard.render (Sample.dashboardProps []) = NoProjectMessage []
   ∧ mountedSections (Dashboard.render (Sample.dashboardProps [])) = [])
  ∧ (WrappedDashboard.render Sample.groupAll false "acme" (Sample.wrapperProps [] 1 false)
       (state (run initial
                 [Mount (Sample.wrapperProps [] 0 false);
                  Update (Sample.wrapperProps [] 0 false) (Sample.wrapperProps [] 1 false)]))
     = LoadingIndicator
     ∧ network (run initial
                  [Mount (Sample.wrapperProps [] 0 false);
                   Update (Sample.wrapperProps [] 0 false) (Sample.wrapperProps [] 1 false)])
       = []).
Proof.
  apply (C6_no_teams_wrapped_dashboard_keeps_loading (Sample.dashboardProps [])
           Sample.groupAll false "acme" (Sample.wrapperProps [] 1 false)
           [Mount (Sample.wrapperProps [] 0 false);
            Update (Sample.wrapperProps [] 0 false) (Sample.wrapperProps [] 1 false)]);
    try reflexivity.
  repeat constructor.
Defined.













